(** * grocy_import.py: normalisation, deduplication, statistics and import

    A shallow embedding of the pipeline core of [grocy_import.py]
    (version 1.5): [valid_barcode], [normalize_name], [product_to_row],
    [dedupe], the intake loop and the import loop of [main], and
    [GrocyAPI.create_product].

    Python [str] values are lists of Unicode code points.  The parts of the
    interpreter's Unicode database the script relies on ([str.strip]'s
    whitespace class, the regular-expression class [\d], [str.title]) are a
    type class, so that every general theorem holds for whatever tables the
    running interpreter ships; the instance [basic_latin] agrees with
    CPython on ASCII text and is used to evaluate concrete runs. *)

From Stdlib Require Import ZArith String Ascii.
From stdpp Require Import base option list gmap sets.

Local Open Scope Z_scope.

(** ** Python strings *)

Definition char := N.
Definition str := list char.

(** A literal of the source, written as a Rocq string of ASCII characters. *)
Definition lit (s : string) : str :=
  (λ a, N_of_ascii a) <$> list_ascii_of_string s.

(** Truthiness of a string: [bool(s)] is [len(s) != 0]. *)
Definition truthy (s : str) : bool :=
  match s with
  | [] => false
  | _ :: _ => true
  end.

(** [a or b] where [a] comes from [dict.get] (None when the key is absent). *)
Definition get_or (a : option str) (b : str) : str :=
  match a with
  | Some s => if truthy s then s else b
  | None => b
  end.

(** The interpreter's Unicode tables used by the script. *)
Class PyUnicode := {
  isspace : char → bool;   (* characters removed by [str.strip()] *)
  re_digit : char → bool;  (* characters matched by [\d] in a str pattern *)
  title : str → str        (* [str.title()] *)
}.

Section Strings.
Context `{PyUnicode}.

Fixpoint lstrip (s : str) : str :=
  match s with
  | [] => []
  | c :: s' => if isspace c then lstrip s' else s
  end.

Definition rstrip (s : str) : str := reverse (lstrip (reverse s)).

(** [s.strip()] *)
Definition strip (s : str) : str := rstrip (lstrip s).

(** [s.split(sep)] for a one-character separator: never the empty list. *)
Fixpoint split (sep : char) (s : str) : list str :=
  match s with
  | [] => [[]]
  | c :: s' =>
      if N.eqb c sep then [] :: split sep s'
      else match split sep s' with
           | w :: ws => (c :: w) :: ws
           | [] => [[c]]
           end
  end.

(** [s.replace(a, b)] for one-character [a] and [b]. *)
Definition replace (a b : char) (s : str) : str :=
  (λ c, if N.eqb c a then b else c) <$> s.

(** [\d{lo,hi}] against the whole string. *)
Definition re_digits (lo hi : nat) (s : str) : bool :=
  forallb re_digit s && (lo <=? length s)%nat && (length s <=? hi)%nat.

(** [re.fullmatch(r"\d{8}|\d{12,14}", s)] as a truth value. *)
Definition fullmatch_barcode (s : str) : bool :=
  re_digits 8 8 s || re_digits 12 14 s.
End Strings.

Definition colon : char := 58%N.
Definition hyphen : char := 45%N.
Definition space : char := 32%N.
Definition comma : char := 44%N.

(** ** Raw records and rows *)

(** The fields of an OpenFoodFacts product the script reads with [p.get];
    [None] is an absent key (or a JSON null), and an absent tag list is the
    default [[]] of [p.get("categories_tags", [])]. *)
Record RawProduct := {
  product_name_de : option str;
  product_name : option str;
  categories_tags : list str;
  code : option str;
  brands : option str;
  stores : option str;
  quantity : option str
}.

(** The dict built by [product_to_row].  [barcode] is what
    [r.get("barcode")] returns, so that [dedupe] can be stated for rows that
    lack the key; rows built by [product_to_row] always carry it. *)
Record Row := {
  row_name : str;
  row_barcode : option str;
  row_brand : str;
  row_store : str;
  row_quantity : str;
  row_cat : str
}.

Global Instance Row_eq_dec : EqDecision Row.
Proof. solve_decision. Defined.

Section Normalizer.
Context `{PyUnicode}.

(** def valid_barcode(code: Optional[str]) -> bool *)
Definition valid_barcode (code : option str) : bool :=
  match code with
  | None => false
  | Some c => truthy c && fullmatch_barcode (strip c)
  end.

(** tags[0].split(":")[-1].replace("-", " ").title() *)
Definition tag_name (tag : str) : str :=
  title (replace hyphen space (default [] (last (split colon tag)))).

(** def normalize_name(p: Dict) -> str *)
Definition normalize_name (p : RawProduct) : str :=
  let n := get_or (product_name_de p) (get_or (product_name p) []) in
  let n := strip n in
  let n :=
    if truthy n then n
    else match categories_tags p with
         | tag :: _ => tag_name tag
         | [] => n
         end in
  if truthy n then n else lit "Unbenanntes Produkt".

(** (field or "").split(",")[0].strip() *)
Definition first_token (field : option str) : str :=
  strip (default [] (head (split comma (get_or field [])))).

(** def product_to_row(p: Dict, category=None) -> Optional[Dict] *)
Definition product_to_row (p : RawProduct) (category : option str)
  : option Row :=
  if valid_barcode (code p) then
    Some {| row_name := normalize_name p;
            row_barcode := Some (strip (default [] (code p)));
            row_brand := first_token (brands p);
            row_store := first_token (stores p);
            row_quantity := get_or (quantity p) [];
            row_cat := get_or category (lit "Unbekannt") |}
  else None.
End Normalizer.

(** ** Deduplication *)

(** One iteration of the loop of [dedupe]: the state is [(seen, out)]. *)
Definition dedupe_step (acc : gset str * list Row) (r : Row)
  : gset str * list Row :=
  match row_barcode r with
  | Some bc =>
      if truthy bc && bool_decide (bc ∉ acc.1)
      then ({[bc]} ∪ acc.1, acc.2 ++ [r])
      else acc
  | None => acc
  end.

(** def dedupe(rows: List[Dict]) -> List[Dict] *)
Definition dedupe (rows : list Row) : list Row :=
  (foldl dedupe_step (∅, []) rows).2.

(** The same loop as a recursion over the rows, from a given [seen] set
    (lemma [dedupe_dedupe_from]). *)
Fixpoint dedupe_from (seen : gset str) (rows : list Row) : list Row :=
  match rows with
  | [] => []
  | r :: rest =>
      match row_barcode r with
      | Some bc =>
          if truthy bc && bool_decide (bc ∉ seen)
          then r :: dedupe_from ({[bc]} ∪ seen) rest
          else dedupe_from seen rest
      | None => dedupe_from seen rest
      end
  end.

(** ** Run statistics *)

(** {"new":0,"skip":0,"imported":0} *)
Record Stats := {
  new : nat;
  skip : nat;
  imported : nat
}.

Definition zero_stats : Stats := {| new := 0; skip := 0; imported := 0 |}.

Definition inc_new (s : Stats) : Stats :=
  {| new := S (new s); skip := skip s; imported := imported s |}.
Definition inc_skip (s : Stats) : Stats :=
  {| new := new s; skip := S (skip s); imported := imported s |}.
Definition inc_imported (s : Stats) : Stats :=
  {| new := new s; skip := skip s; imported := S (imported s) |}.

(** [stats_cat[cat]] on the [defaultdict]: an absent key reads as zeros. *)
Definition cat_stats (m : gmap str Stats) (cat : str) : Stats :=
  default zero_stats (m !! cat).

(** [stats_cat[cat][field] += 1] *)
Definition bump (f : Stats → Stats) (cat : str) (m : gmap str Stats)
  : gmap str Stats :=
  <[cat := f (cat_stats m cat)]> m.

(** The sum of one counter over all keys of [stats_cat]. *)
Definition sum_cat (field : Stats → nat) (m : gmap str Stats) : nat :=
  map_fold (λ _ s acc, (field s + acc)%nat) 0%nat m.

(** ** The orchestrator: intake *)

(** CATEGORIES; the umlauts are U+00E4 (228) and U+00FC (252). *)
Definition CATEGORIES : list str := [
  lit "Getr" ++ [228%N] ++ lit "nke";
  lit "Tiefk" ++ [252%N] ++ lit "hlprodukte";
  lit "Backzutaten";
  lit "Grundnahrungsmittel";
  lit "Pasta und Reis";
  lit "Konserven";
  lit "Obst";
  lit "Gem" ++ [252%N] ++ lit "se";
  lit "Internationale K" ++ [252%N] ++ lit "che";
  lit "Hygiene";
  lit "Drogerie";
  lit "Putzmittel";
  lit "Haushaltswaren"
].

(** The mutable locals of [main] during intake, together with the log of
    [fetch_category] calls (category, requested count) issued so far. *)
Record State := {
  stats_total : Stats;
  stats_cat : gmap str Stats;
  all_rows : list Row;
  fetch_log : list (str * Z)
}.

Definition init_state : State :=
  {| stats_total := zero_stats; stats_cat := ∅; all_rows := [];
     fetch_log := [] |}.

(** [r["barcode"]] on a row built by [product_to_row], whose key is always
    present (lemma [product_to_row_barcode]); the default is never used. *)
Definition getitem_barcode (r : Row) : str := default [] (row_barcode r).

(** per_cat = max(10, limit // len(CATEGORIES)) *)
Definition per_cat (limit : Z) : Z :=
  Z.max 10 (limit / Z.of_nat (length CATEGORIES)).

(** [rows[:k]] for a Python int [k]: a negative [k] counts from the end. *)
Definition slice_to {A} (l : list A) (k : Z) : list A :=
  if k <? 0 then take (Z.to_nat (Z.max 0 (Z.of_nat (length l) + k))) l
  else take (Z.to_nat k) l.

Section Intake.
Context `{PyUnicode}.
(** [existing]: the snapshot returned by [fetch_existing_barcodes]. *)
Variable existing : gset str.
(** [fetch_category(cat, limit=...)]: what the search service answers for a
    category and a requested count ([[]] when the request failed). *)
Variable fetch_category : str → Z → list RawProduct.

(** The body of [for p in products]. *)
Definition intake (cat : str) (st : State) (p : RawProduct) : State :=
  match product_to_row p (Some cat) with
  | None =>
      {| stats_total := stats_total st;
         stats_cat := bump inc_skip cat (stats_cat st);
         all_rows := all_rows st;
         fetch_log := fetch_log st |}
  | Some r =>
      if bool_decide (getitem_barcode r ∈ existing) then
        {| stats_total := inc_skip (stats_total st);
           stats_cat := bump inc_skip cat (stats_cat st);
           all_rows := all_rows st;
           fetch_log := fetch_log st |}
      else
        {| stats_total := inc_new (stats_total st);
           stats_cat := bump inc_new cat (stats_cat st);
           all_rows := all_rows st ++ [r];
           fetch_log := fetch_log st |}
  end.

(** The body of [for cat in CATEGORIES]. *)
Definition intake_category (limit : Z) (st : State) (cat : str) : State :=
  let products := fetch_category cat (per_cat limit) in
  let st := {| stats_total := stats_total st;
               stats_cat := stats_cat st;
               all_rows := all_rows st;
               fetch_log := fetch_log st ++ [(cat, per_cat limit)] |} in
  foldl (intake cat) st products.

(** Lines 254-278 of [main]. *)
Definition collect (limit : Z) : State :=
  foldl (intake_category limit) init_state CATEGORIES.

(** all_rows = dedupe(all_rows)[:limit]; these rows are written to the CSV. *)
Definition written_rows (limit : Z) : list Row :=
  slice_to (dedupe (all_rows (collect limit))) limit.

(** The records fetched for the given categories, in fetch order, each with
    the category it was fetched under. *)
Definition fetched_for (limit : Z) (cats : list str)
  : list (RawProduct * str) :=
  cat ← cats; (λ p, (p, cat)) <$> fetch_category cat (per_cat limit).

(** The records of the run. *)
Definition fetched (limit : Z) : list (RawProduct * str) :=
  fetched_for limit CATEGORIES.
End Intake.

(** ** The Grocy API *)

Inductive exn :=
  | HTTPError   (* requests.HTTPError, raised by [raise_for_status] *)
  | OtherError. (* anything else: ConnectionError, Timeout, a body that is
                   not JSON or lacks the expected key, ... *)

Inductive result (A : Type) :=
  | Ok (a : A)
  | Raise (e : exn).
Arguments Ok {A} a.
Arguments Raise {A} e.

(** The POST requests of the script, by path and payload. *)
Inductive request :=
  | PostQuantityUnit (name name_plural : str)
  | PostLocation (name : str)
  | PostProduct (name description : str)
      (qu_id_stock qu_id_purchase location_id min_stock_amount : Z)
  | PostProductBarcode (product_id : Z) (barcode : str).

Inductive collection := QuantityUnits | Locations.

(** The Grocy server seen through [GrocyAPI._get] and [GrocyAPI._post]
    (request, [raise_for_status], [json]).  A GET answers the entities as
    [(name, id)]; a POST answers the body's [created_object_id] when it has
    one. *)
Class Remote (R : Type) := {
  remote_get : collection → R → result (list (str * Z)) * R;
  remote_post : request → R → result (option Z) * R
}.

(** Computations that talk to the server and may raise. *)
Definition Api (R A : Type) : Type := R → result A * R.

Definition ret {R A} (a : A) : Api R A := λ s, (Ok a, s).
Definition raise {R A} (e : exn) : Api R A := λ s, (Raise e, s).
Definition bind {R A B} (m : Api R A) (k : A → Api R B) : Api R B :=
  λ s, match m s with
       | (Ok a, s') => k a s'
       | (Raise e, s') => (Raise e, s')
       end.

(** try: m / except requests.HTTPError: handler *)
Definition except_HTTPError {R A} (m handler : Api R A) : Api R A :=
  λ s, match m s with
       | (Raise HTTPError, s') => handler s'
       | other => other
       end.

Global Instance Api_ret {R} : MRet (Api R) := λ A, ret.
Global Instance Api_bind {R} : MBind (Api R) := λ A B k m, bind m k.

Section GrocyAPI.
Context `{PyUnicode} {R : Type} `{Remote R}.

(** int(self._post(path, payload)["created_object_id"]) *)
Definition post_created_id (req : request) : Api R Z :=
  body ← (remote_post req : Api R _);
  match body with
  | Some id => ret id
  | None => raise OtherError
  end.

(** The lookup-or-create of [ensure_unit] and [ensure_location]. *)
Definition ensure (coll : collection) (name : str) (create : request)
  : Api R Z :=
  entities ← (remote_get coll : Api R _);
  match List.find (λ e, bool_decide (e.1 = name)) entities with
  | Some e => ret e.2
  | None => post_created_id create
  end.

Definition ensure_unit (name : str) : Api R Z :=
  ensure QuantityUnits name (PostQuantityUnit name name).

Definition ensure_location (name : str) : Api R Z :=
  ensure Locations name (PostLocation name).

(** The [payload] of [create_product], posted to /api/objects/products. *)
Definition product_request (row : Row) (qu_id loc_id : Z) : request :=
  PostProduct (row_name row)
    (strip (row_brand row ++ [space] ++ row_quantity row))
    qu_id qu_id loc_id 0.

(** def create_product(self, row, qu_id, loc_id) -> Optional[int] *)
Definition create_product (row : Row) (qu_id loc_id : Z)
  : Api R (option Z) :=
  let payload := product_request row qu_id loc_id in
  except_HTTPError
    (pid ← post_created_id payload;
     _ ← (remote_post (PostProductBarcode pid (getitem_barcode row))
          : Api R _);
     ret (Some pid))
    (ret None).

(** Truthiness of what [create_product] returns. *)
Definition truthy_pid (pid : option Z) : bool :=
  match pid with
  | Some n => negb (n =? 0)
  | None => false
  end.

(** stats_total["imported"] += 1; stats_cat[r["cat"]]["imported"] += 1 *)
Definition count_imported (r : Row) (st : State) : State :=
  {| stats_total := inc_imported (stats_total st);
     stats_cat := bump inc_imported (row_cat r) (stats_cat st);
     all_rows := all_rows st;
     fetch_log := fetch_log st |}.

(** [for r in all_rows] of the import: the counters reached and the server
    state survive an exception, the remaining rows are not attempted. *)
Fixpoint import_rows (qu loc : Z) (rows : list Row) (st : State) (s : R)
  : result unit * State * R :=
  match rows with
  | [] => (Ok tt, st, s)
  | r :: rest =>
      match create_product r qu loc s with
      | (Ok pid, s') =>
          import_rows qu loc rest
            (if truthy_pid pid then count_imported r st else st) s'
      | (Raise e, s') => (Raise e, st, s')
      end
  end.

Definition unit_name : str := lit "St" ++ [252%N] ++ lit "ck".
Definition location_name : str := lit "Vorrat".

(** if do_import and all_rows: ... (lines 286-294) *)
Definition import_phase (do_import : bool) (rows : list Row) (st : State)
  (s : R) : result unit * State * R :=
  if do_import && bool_decide (rows ≠ []) then
    match ensure_unit unit_name s with
    | (Ok qu, s1) =>
        match ensure_location location_name s1 with
        | (Ok loc, s2) => import_rows qu loc rows st s2
        | (Raise e, s2) => (Raise e, st, s2)
        end
    | (Raise e, s1) => (Raise e, st, s1)
    end
  else (Ok tt, st, s).
End GrocyAPI.

Section Run.
Context `{PyUnicode} {R : Type} `{Remote R}.
Variable existing : gset str.
Variable fetch_category : str → Z → list RawProduct.

(** [main] from line 254 to the summary: intake, truncation, import.  The
    state carries the rows written to the CSV in [all_rows]. *)
Definition run (limit : Z) (do_import : bool) (s : R)
  : result unit * State * R :=
  let st := collect existing fetch_category limit in
  let rows := slice_to (dedupe (all_rows st)) limit in
  let st := {| stats_total := stats_total st;
               stats_cat := stats_cat st;
               all_rows := rows;
               fetch_log := fetch_log st |} in
  import_phase do_import rows st s.
End Run.

(** ** Concrete tables and servers for evaluating runs *)

(** [str.isspace] per character (Unicode 6.3 and later). *)
Definition unicode_isspace (c : char) : bool :=
  ((9 <=? c) && (c <=? 13) || (28 <=? c) && (c <=? 32) || (c =? 133)
   || (c =? 160) || (c =? 5760) || (8192 <=? c) && (c <=? 8202)
   || (c =? 8232) || (c =? 8233) || (c =? 8239) || (c =? 8287)
   || (c =? 12288))%N.

Definition ascii_digit (c : char) : bool := ((48 <=? c) && (c <=? 57))%N.
Definition ascii_upper (c : char) : bool := ((65 <=? c) && (c <=? 90))%N.
Definition ascii_lower (c : char) : bool := ((97 <=? c) && (c <=? 122))%N.

(** [str.title] on ASCII text: a letter that follows a letter is lowered,
    any other letter is raised. *)
Fixpoint ascii_title (previous_is_cased : bool) (s : str) : str :=
  match s with
  | [] => []
  | c :: s' =>
      let c' :=
        if previous_is_cased
        then (if ascii_upper c then c + 32 else c)%N
        else (if ascii_lower c then c - 32 else c)%N in
      c' :: ascii_title (ascii_upper c || ascii_lower c) s'
  end.

Definition basic_latin : PyUnicode :=
  {| isspace := unicode_isspace;
     re_digit := ascii_digit;
     title := ascii_title false |}.

(** A server that answers the POSTs from a script of outcomes, in order,
    and has no units or locations on file; once the script is exhausted,
    every POST is answered with a fresh identifier 1. *)
Definition scripted_server : Remote (list (result (option Z))) :=
  {| remote_get := λ _ s, (Ok [], s);
     remote_post := λ _ s,
       match s with
       | o :: s' => (o, s')
       | [] => (Ok (Some 1), [])
       end |}.

(** ** The notions of the specification used in the statements *)

Section Accepted.
Context `{PyUnicode}.
Variable existing : gset str.

(** The identifier of a fetched record: its code, trimmed. *)
Definition identifier (p : RawProduct) : option str := strip <$> code p.

(** The identifier is in the KnownIdentifierSet snapshot. *)
Definition remote_known (p : RawProduct) : bool :=
  match identifier p with
  | Some id => bool_decide (id ∈ existing)
  | None => false
  end.

(** "rows that are valid, not remote-known and the first occurrence of their
    identifier in this run": [earlier] holds the records fetched before
    [recs] in this run. *)
Fixpoint accepted_per_spec (earlier : list RawProduct)
    (recs : list (RawProduct * str)) : list Row :=
  match recs with
  | [] => []
  | (p, cat) :: rest =>
      (if valid_barcode (code p) && negb (remote_known p)
          && bool_decide (Forall (λ q, identifier q ≠ identifier p) earlier)
       then option_list (product_to_row p (Some cat))
       else [])
      ++ accepted_per_spec (earlier ++ [p]) rest
  end.

(** The fetched records rejected for the format of their identifier. *)
Definition rejected_for_format (recs : list (RawProduct * str)) : nat :=
  length (filter (λ pc, valid_barcode (code pc.1) = false) recs).

(** The fetched records with a valid identifier that is in the snapshot. *)
Definition skipped_as_known (recs : list (RawProduct * str)) : nat :=
  length (filter (λ pc, valid_barcode (code pc.1) = true
                        ∧ remote_known pc.1 = true) recs).

(** The relations between the aggregate and the per-category counters once
    the records [recs] have been taken in. *)
Definition balanced (recs : list (RawProduct * str)) (st : State) : Prop :=
  new (stats_total st) = sum_cat new (stats_cat st) ∧
  imported (stats_total st) = sum_cat imported (stats_cat st) ∧
  sum_cat skip (stats_cat st)
  = (skip (stats_total st) + rejected_for_format recs)%nat ∧
  skip (stats_total st) = skipped_as_known recs.

(** What the [seen] set of [dedupe] holds once the records [earlier] have
    been taken in. *)
Definition seen_after (seen : gset str) (earlier : list RawProduct) : Prop :=
  ∀ id, id ∈ seen ↔
        ∃ q, q ∈ earlier ∧ identifier q = Some id ∧
             valid_barcode (code q) = true ∧ id ∉ existing.

(** The rows that intake appends for a sequence of fetched records. *)
Definition intake_rows (recs : list (RawProduct * str)) : list Row :=
  pc ← recs;
  match product_to_row pc.1 (Some pc.2) with
  | Some r => if bool_decide (getitem_barcode r ∈ existing) then [] else [r]
  | None => []
  end.
End Accepted.

(** A server that refuses a barcode already on file with an HTTP error
    status and accepts everything else; its state is the set of barcodes on
    file.  Product identifiers are positive. *)
Definition conflict_server : Remote (gset str) :=
  {| remote_get := λ _ s, (Ok [], s);
     remote_post := λ req s,
       match req with
       | PostProductBarcode _ bc =>
           if bool_decide (bc ∈ s) then (Raise HTTPError, s)
           else (Ok (Some 1), {[bc]} ∪ s)
       | _ => (Ok (Some (Z.of_nat (size s) + 1)), s)
       end |}.

(** The server never fails otherwise than by an HTTP error status, and it
    answers a created product with its identifier. *)
Definition fails_by_status_only {R : Type} `{Remote R} : Prop :=
  ∀ req s,
    match (remote_post req s).1 with
    | Ok (Some _) => True
    | Ok None => ∃ pid bc, req = PostProductBarcode pid bc
    | Raise HTTPError => True
    | Raise OtherError => False
    end.

(** An entry of [stats_cat] that the summary prints under a category of the
    list: its key is one of [CATEGORIES] and one of its counters is positive
    ([any(vals.values())]). *)
Definition printed_entry (cat : str) (v : Stats) : Prop :=
  cat ∈ CATEGORIES ∧ (0 < new v + skip v + imported v)%nat.

(** The calls a server receives. *)
Inductive call :=
  | CallGet (coll : collection)
  | CallPost (req : request).

(** A server that, besides answering as [srv] does, keeps the log of the
    calls it has received, in order. *)
Definition logged {R : Type} (srv : Remote R) : Remote (list call * R) :=
  {| remote_get := λ coll s,
       let '(res, s') := @remote_get R srv coll s.2 in
       (res, (s.1 ++ [CallGet coll], s'));
     remote_post := λ req s,
       let '(res, s') := @remote_post R srv req s.2 in
       (res, (s.1 ++ [CallPost req], s')) |}.

(** The call creates a product or attaches a barcode to one. *)
Definition product_call (c : call) : bool :=
  match c with
  | CallPost (PostProduct _ _ _ _ _ _) => true
  | CallPost (PostProductBarcode _ _) => true
  | _ => false
  end.

(** Sample records. *)
Definition product_with_code (c : string) : RawProduct :=
  {| product_name_de := None; product_name := None; categories_tags := [];
     code := Some (lit c); brands := None; stores := None; quantity := None |}.

Definition product_with_names (de generic : string) : RawProduct :=
  {| product_name_de := Some (lit de); product_name := Some (lit generic);
     categories_tags := []; code := None; brands := None; stores := None;
     quantity := None |}.

Definition product_with_tag (tag : string) : RawProduct :=
  {| product_name_de := None; product_name := None;
     categories_tags := [lit tag]; code := None; brands := None;
     stores := None; quantity := None |}.

Definition product_named (n : str) : RawProduct :=
  {| product_name_de := Some n; product_name := None;
     categories_tags := []; code := None; brands := None; stores := None;
     quantity := None |}.

(** The row of a record that has only a code, fetched under a category. *)
Definition row_of_code (c cat : string) : Row :=
  {| row_name := lit "Unbenanntes Produkt"; row_barcode := Some (lit c);
     row_brand := []; row_store := []; row_quantity := [];
     row_cat := lit cat |}.

(** A search service that answers the given records for "Obst" and nothing
    for the other categories. *)
Definition obst_only (products : list RawProduct) (cat : str) (count : Z)
  : list RawProduct :=
  if bool_decide (cat = lit "Obst") then products else [].

(** ** The category fetcher *)

(** The code points of a literal given in UTF-8, for characters below
    U+0800 (one or two bytes). *)
Fixpoint utf8_decode (bytes : list N) : str :=
  match bytes with
  | [] => []
  | b :: rest =>
      if (b <? 192)%N then b :: utf8_decode rest
      else match rest with
           | c :: rest' => ((b - 192) * 64 + (c - 128))%N :: utf8_decode rest'
           | [] => [b]
           end
  end.

Definition utf8 (s : string) : str := utf8_decode (lit s).

(** SUBKEYWORDS *)
Definition SUBKEYWORDS : gmap str (list str) :=
  list_to_map [
    (utf8 "Getränke",
     utf8 <$> ["Wasser"; "Saft"; "Limonade"; "Bier"; "Wein"; "Kaffee";
               "Tee"]%string);
    (utf8 "Tiefkühlprodukte",
     utf8 <$> ["Pizza"; "Gemüse"; "Fisch"; "Eis"; "Kräuter"]%string);
    (utf8 "Backzutaten",
     utf8 <$> ["Mehl"; "Zucker"; "Backpulver"; "Hefe"; "Vanille"]%string);
    (utf8 "Grundnahrungsmittel",
     utf8 <$> ["Reis"; "Öl"; "Nudeln"; "Kartoffeln"; "Butter"]%string);
    (utf8 "Pasta und Reis",
     utf8 <$> ["Spaghetti"; "Penne"; "Basmati"; "Couscous"]%string);
    (utf8 "Konserven",
     utf8 <$> ["Mais"; "Bohnen"; "Erbsen"; "Tomaten"; "Thunfisch"]%string);
    (utf8 "Obst",
     utf8 <$> ["Apfel"; "Banane"; "Birne"; "Traube"; "Orange"]%string);
    (utf8 "Gemüse",
     utf8 <$> ["Tomate"; "Gurke"; "Paprika"; "Karotte"; "Zwiebel"]%string);
    (utf8 "Internationale Küche",
     utf8 <$> ["Sojasauce"; "Curry"; "Pesto"; "Kokosmilch"]%string);
    (utf8 "Hygiene",
     utf8 <$> ["Shampoo"; "Zahnpasta"; "Duschgel"; "Deo"; "Seife"]%string);
    (utf8 "Drogerie",
     utf8 <$> ["Wattepads"; "Creme"; "Lotion"; "Make-Up";
               "Rasiergel"]%string);
    (utf8 "Putzmittel",
     utf8 <$> ["Spülmittel"; "Reiniger"; "Waschmittel";
               "Weichspüler"]%string);
    (utf8 "Haushaltswaren",
     utf8 <$> ["Müllbeutel"; "Küchenrolle"; "Toilettenpapier"]%string)
  ].

(** The query string of a search request: the defaults of [off_query],
    updated with the parameters [fetch_category] passes. *)
Record off_request := {
  search_simple : Z;
  action : str;
  json : Z;
  page_size : Z;
  search_terms : str;
  countries : str;
  lc : str;
  sort_by : str;
  page : Z
}.

(** The search service seen through [requests.get], [raise_for_status] and
    [json]: the value under "products" of the body, when it has one. *)
Class SearchService (W : Type) := {
  search : off_request → W → result (option (list RawProduct)) * W
}.

(** The generator behind the [random] module: [_randbelow(n)]. *)
Class Random (G : Type) := {
  randbelow : nat → G → nat * G
}.

(** [_randbelow(n)] answers a number below [n]. *)
Definition randbelow_in_range {G : Type} `{Random G} : Prop :=
  ∀ n g, (0 < n)%nat → ((randbelow n g).1 < n)%nat.

Section Fetcher.
Context {G W : Type} `{Random G} `{SearchService W}.

(** random.choice(seq) *)
Definition choice {A} (seq : list A) (g : G) : result A * G :=
  match seq with
  | [] => (Raise OtherError, g)
  | _ :: _ =>
      let '(i, g') := randbelow (length seq) g in
      match seq !! i with
      | Some x => (Ok x, g')
      | None => (Raise OtherError, g')
      end
  end.

(** random.randint(a, a + width - 1) *)
Definition randint (a : Z) (width : nat) (g : G) : Z * G :=
  let '(i, g') := randbelow width g in (a + Z.of_nat i, g').

(** def off_query(params: Dict, page_size: int = 50) -> List[Dict] *)
Definition off_query (terms ctry lang sort : str) (pg : Z) (size : Z) (w : W)
  : result (list RawProduct) * W :=
  let p := {| search_simple := 1; action := lit "process"; json := 1;
              page_size := size; search_terms := terms; countries := ctry;
              lc := lang; sort_by := sort; page := pg |} in
  match search p w with
  | (Ok body, w') => (Ok (default [] body), w')
  | (Raise e, w') => (Raise e, w')
  end.

(** def fetch_category(cat, limit=50, debug=False, random_subcats=False);
    [debug] only prints the records received and is left out.  Whatever
    [off_query] raises is caught by [except Exception]. *)
Definition fetch_category (cat : str) (limit : Z) (random_subcats : bool)
    (g : G) (w : W) : result (list RawProduct) * G * W :=
  let pick :=
    if random_subcats then
      match SUBKEYWORDS !! cat with
      | Some subs => choice subs g
      | None => (Ok cat, g)
      end
    else (Ok cat, g) in
  match pick with
  | (Raise e, g1) => (Raise e, g1, w)
  | (Ok search_term, g1) =>
      let '(pg, g2) := randint 1 10 g1 in
      match off_query search_term (lit "Germany") (lit "de") (lit "random")
              pg limit w with
      | (Ok items, w') => (Ok items, g2, w')
      | (Raise _, w') => (Ok [], g2, w')
      end
  end.
End Fetcher.

(** A generator that counts up, and a search service that fails on the
    first request and answers one record afterwards. *)
Definition counting_random : Random nat :=
  {| randbelow := λ n g, (g `mod` n, S g)%nat |}.

Definition failing_once : SearchService bool :=
  {| search := λ (req : off_request) (failed : bool),
       if failed then (Ok (Some [product_with_code "40123456"]), true)
       else (Raise OtherError, true) |}.

(** ** The snapshot of known barcodes *)

(** The value under "barcode" of an entry of /api/objects/product_barcodes,
    as Grocy serves it: a string, null, or no such key. *)
Inductive barcode_field :=
  | BarcodeAbsent
  | BarcodeNull
  | BarcodeStr (b : str).

(** str(x.get("barcode","")) *)
Definition barcode_text (x : barcode_field) : str :=
  match x with
  | BarcodeAbsent => []
  | BarcodeNull => lit "None"
  | BarcodeStr b => b
  end.

(** The listing of the barcodes on file, seen through [GrocyAPI._get]; the
    body may be null. *)
Class BarcodeListing (R : Type) := {
  remote_get_barcodes : R → result (option (list barcode_field)) * R
}.

Section Snapshot.
Context `{PyUnicode}.

(** The set comprehension of [fetch_existing_barcodes] over [data or []]. *)
Definition existing_barcodes (data : option (list barcode_field)) : gset str :=
  list_to_set
    (filter (λ b, truthy b = true)
       ((λ x, strip (barcode_text x)) <$> default [] data)).

(** def fetch_existing_barcodes(self) -> Set[str] *)
Definition fetch_existing_barcodes {R : Type} `{BarcodeListing R}
  : Api R (gset str) :=
  data ← (remote_get_barcodes : Api R _);
  ret (existing_barcodes data).
End Snapshot.

(** ** Configuration values *)

(** [str.lower] of the interpreter. *)
Class PyLower := { lower : str → str }.

Section Config.
Context `{PyUnicode} `{PyLower}.

(** def parse_bool(s: str, default=False) -> bool *)
Definition parse_bool (s : option str) (default : bool) : bool :=
  match s with
  | None => default
  | Some s =>
      bool_decide (lower (strip s)
                   ∈ [lit "1"; lit "true"; lit "yes"; lit "y"; lit "on"])
  end.
End Config.

(** ** The command line, the INI file and [main] *)

(** The namespace that [argparse] answers. *)
Record Args := {
  arg_config : str;
  arg_init_config : bool;
  arg_csv : option str;
  arg_limit : option Z;
  arg_grocy_url : option str;
  arg_api_key : option str;
  arg_debug : bool;
  arg_do_import : bool;
  arg_no_import : bool;
  arg_seed : option Z;
  arg_random_subcats : bool
}.

(** What [getint] finds under "limit": no key, an integer, or a value that
    is not an integer (ValueError). *)
Inductive ini_int :=
  | IniIntAbsent
  | IniInt (n : Z)
  | IniIntInvalid.

(** The keys of the section [grocy] that [main] reads. *)
Record IniSection := {
  ini_grocy_url : option str;
  ini_api_key : option str;
  ini_csv_path : option str;
  ini_limit : ini_int;
  ini_debug : option str;
  ini_import_to_grocy : option str;
  ini_random_subcategories : option str
}.

(** The file named by [--config]: absent, rejected by [cfg.read], or read,
    with or without a section [grocy]. *)
Inductive config_file :=
  | ConfigMissing
  | ConfigUnreadable
  | ConfigParsed (grocy : option IniSection).

(** What [parser.parse_args()] (line 213) does with the command line: it
    rejects it, or shows the help asked for by [-h], raising [SystemExit]
    with status 2 or 0, or returns the namespace [args]. *)
Inductive parse_args_result :=
  | UsageError
  | HelpShown
  | Namespace (args : Args).

(** The locals of [main] after lines 226-234. *)
Record Settings := {
  grocy_url : str;
  api_key : str;
  csv_path : str;
  limit : Z;
  debug : bool;
  do_import : bool;
  random_subcats : bool
}.

(** What a call of [main] leaves behind: the exit status of the process,
    the example INI written by [--init-config], the seed given to
    [random.seed], the CSV file written (path and rows), the statistics
    printed by the summary, and the server. *)
Record Outcome (R : Type) := {
  exit_code : Z;
  ini_written : option str;
  seeded : option Z;
  csv_written : option (str * list Row);
  summary : option State;
  server : R
}.
Arguments exit_code {R} _.
Arguments ini_written {R} _.
Arguments seeded {R} _.
Arguments csv_written {R} _.
Arguments summary {R} _.
Arguments server {R} _.

Section Main.
Context `{PyUnicode} `{PyLower}.
Context {R : Type} `{Remote R} `{BarcodeListing R}.

(** limit = args.limit or cfg["grocy"].getint("limit", 200) *)
Definition resolve_limit (arg : option Z) (ini : ini_int) : result Z :=
  match arg with
  | Some n => if n =? 0 then
                match ini with
                | IniIntAbsent => Ok 200
                | IniInt m => Ok m
                | IniIntInvalid => Raise OtherError
                end
              else Ok n
  | None => match ini with
            | IniIntAbsent => Ok 200
            | IniInt m => Ok m
            | IniIntInvalid => Raise OtherError
            end
  end.

(** Lines 226-234 of [main]. *)
Definition resolve (args : Args) (sec : IniSection) : result Settings :=
  let url := get_or (arg_grocy_url args)
               (strip (default [] (ini_grocy_url sec))) in
  let key := get_or (arg_api_key args)
               (strip (default [] (ini_api_key sec))) in
  let csv := get_or (arg_csv args)
               (strip (default (lit "products_sync.csv")
                         (ini_csv_path sec))) in
  match resolve_limit (arg_limit args) (ini_limit sec) with
  | Raise e => Raise e
  | Ok lim =>
      let dbg := arg_debug args
                 || parse_bool (Some (default (lit "false") (ini_debug sec)))
                      false in
      let ini_import :=
        parse_bool (Some (default (lit "false") (ini_import_to_grocy sec)))
          false in
      let subcats :=
        arg_random_subcats args
        || parse_bool
             (Some (default (lit "false") (ini_random_subcategories sec)))
             false in
      Ok {| grocy_url := url; api_key := key; csv_path := csv; limit := lim;
            debug := dbg;
            do_import := arg_do_import args
                         || (ini_import && negb (arg_no_import args));
            random_subcats := subcats |}
  end.

(** The process ends with the given status and nothing else done. *)
Definition stopped (code : Z) (seed : option Z) (s : R) : Outcome R :=
  {| exit_code := code; ini_written := None; seeded := seed;
     csv_written := None; summary := None; server := s |}.

(** [main] from line 215 on, for the namespace [args] that
    [parser.parse_args()] returned, under the handler of lines 308-315:
    [sys.exit(2)] ends the process with status 2, any other exception with
    status 1.  [writable] tells whether the file the run opens for writing
    (the example INI or the CSV) can be opened, and [fetch] is what
    [fetch_category] answers.  The call of [parse_args] itself is the first
    step of [script] below. *)
Definition main (args : Args) (cfile : config_file) (writable : bool)
    (fetch : str → Z → list RawProduct) (s : R) : Outcome R :=
  if arg_init_config args then
    if writable then
      {| exit_code := 0; ini_written := Some (arg_config args);
         seeded := None; csv_written := None; summary := None; server := s |}
    else stopped 1 None s
  else
    match cfile with
    | ConfigMissing => stopped 2 None s
    | ConfigUnreadable => stopped 1 None s
    | ConfigParsed None => stopped 1 None s
    | ConfigParsed (Some sec) =>
        match resolve args sec with
        | Raise _ => stopped 1 None s
        | Ok cfg =>
            if negb (truthy (grocy_url cfg)) || negb (truthy (api_key cfg))
            then stopped 2 (arg_seed args) s
            else
              match fetch_existing_barcodes s with
              | (Raise _, s1) => stopped 1 (arg_seed args) s1
              | (Ok existing, s1) =>
                  if writable then
                    let '(res, st, s2) :=
                      run existing fetch (limit cfg) (do_import cfg) s1 in
                    {| exit_code := match res with
                                    | Ok _ => 0
                                    | Raise _ => 1
                                    end;
                       ini_written := None;
                       seeded := arg_seed args;
                       csv_written := Some (csv_path cfg, all_rows st);
                       summary := match res with
                                  | Ok _ => Some st
                                  | Raise _ => None
                                  end;
                       server := s2 |}
                  else stopped 1 (arg_seed args) s1
              end
        end
    end.

(** The script run from a command line (lines 196-315): [main] starts with
    [parser.parse_args()], whose [SystemExit] is no [Exception] and so
    passes the handler of lines 308-315 and ends the process, with status 2
    for a command line that [argparse] rejects and with status 0 after
    [-h]; nothing has been read, written or requested by then. *)
Definition script (argv : parse_args_result) (cfile : config_file)
    (writable : bool) (fetch : str → Z → list RawProduct) (s : R)
    : Outcome R :=
  match argv with
  | UsageError => stopped 2 None s
  | HelpShown => stopped 0 None s
  | Namespace args => main args cfile writable fetch s
  end.
End Main.

(** The command line with another [--limit]. *)
Definition with_limit (l : option Z) (args : Args) : Args :=
  {| arg_config := arg_config args; arg_init_config := arg_init_config args;
     arg_csv := arg_csv args; arg_limit := l;
     arg_grocy_url := arg_grocy_url args; arg_api_key := arg_api_key args;
     arg_debug := arg_debug args; arg_do_import := arg_do_import args;
     arg_no_import := arg_no_import args; arg_seed := arg_seed args;
     arg_random_subcats := arg_random_subcats args |}.

(** The command line with other [--import] and [--no-import] flags. *)
Definition with_import_flags (imp no_imp : bool) (args : Args) : Args :=
  {| arg_config := arg_config args; arg_init_config := arg_init_config args;
     arg_csv := arg_csv args; arg_limit := arg_limit args;
     arg_grocy_url := arg_grocy_url args; arg_api_key := arg_api_key args;
     arg_debug := arg_debug args; arg_do_import := imp;
     arg_no_import := no_imp; arg_seed := arg_seed args;
     arg_random_subcats := arg_random_subcats args |}.

(** A listing without barcodes on file, and one that cannot be reached. *)
Definition empty_listing {R : Type} : BarcodeListing R :=
  {| remote_get_barcodes := λ s, (Ok (Some []), s) |}.

Definition unreachable_listing {R : Type} : BarcodeListing R :=
  {| remote_get_barcodes := λ s, (Raise OtherError, s) |}.

(** A command line with the defaults of [argparse], and an INI section with
    an address, a key and [import_to_grocy = true]. *)
Definition default_args : Args :=
  {| arg_config := lit "grocy_import.ini"; arg_init_config := false;
     arg_csv := None; arg_limit := None; arg_grocy_url := None;
     arg_api_key := None; arg_debug := false; arg_do_import := false;
     arg_no_import := false; arg_seed := None;
     arg_random_subcats := false |}.

Definition sample_section : IniSection :=
  {| ini_grocy_url := Some (lit "https://grocy.example/ ");
     ini_api_key := Some (lit "secret"); ini_csv_path := None;
     ini_limit := IniIntAbsent; ini_debug := None;
     ini_import_to_grocy := Some (lit " True ");
     ini_random_subcategories := None |}.

(** [s.rstrip(chars)] for a one-character [chars]. *)
Fixpoint lstrip_char (c : char) (s : str) : str :=
  match s with
  | [] => []
  | d :: s' => if N.eqb d c then lstrip_char c s' else s
  end.

Definition rstrip_char (c : char) (s : str) : str :=
  reverse (lstrip_char c (reverse s)).

Definition slash : char := 47%N.

(** f"{self.url}{path}" with self.url = url.rstrip("/") *)
Definition api_url (url path : str) : str := rstrip_char slash url ++ path.

(** ASCII lower-casing, for evaluating [parse_bool] on ASCII text. *)
Definition ascii_lower_case : PyLower :=
  {| lower := fmap (λ c, if ascii_upper c then (c + 32)%N else c) |}.

(** * Properties *)

(** ** Strings *)

Section StringFacts.
Context `{PyUnicode}.

Lemma lstrip_idemp (s : str) : lstrip (lstrip s) = lstrip s.
Proof.
  induction s as [|c s IH]; simpl; [done|].
  destruct (isspace c) eqn:E; [done|]. simpl. by rewrite E.
Qed.

Lemma lstrip_snoc (s : str) (c : char) :
  isspace c = false → lstrip (s ++ [c]) = lstrip s ++ [c].
Proof.
  intros Hc. induction s as [|d s IH]; simpl.
  - by rewrite Hc.
  - destruct (isspace d); [apply IH | done].
Qed.

Lemma rstrip_cons (c : char) (s : str) :
  isspace c = false → rstrip (c :: s) = c :: rstrip s.
Proof.
  intros Hc. unfold rstrip.
  by rewrite reverse_cons, lstrip_snoc, reverse_app by done.
Qed.

Lemma rstrip_idemp (s : str) : rstrip (rstrip s) = rstrip s.
Proof. unfold rstrip. by rewrite reverse_involutive, lstrip_idemp. Qed.

Lemma lstrip_head (s : str) (c : char) (s' : str) :
  lstrip s = c :: s' → isspace c = false.
Proof.
  induction s as [|d s IH]; simpl; [done|].
  destruct (isspace d) eqn:E; [done|]. by intros [= -> ->].
Qed.

(** [strip] is idempotent. *)
Lemma strip_idemp (s : str) : strip (strip s) = strip s.
Proof.
  unfold strip. destruct (lstrip s) as [|c t] eqn:E; [done|].
  pose proof (lstrip_head _ _ _ E) as Hc.
  rewrite rstrip_cons by done. simpl. rewrite Hc.
  by rewrite rstrip_cons, rstrip_idemp.
Qed.

Lemma strip_nil : strip [] = [].
Proof. done. Qed.

Lemma truthy_true (s : str) : truthy s = true ↔ s ≠ [].
Proof. by destruct s. Qed.

Lemma truthy_length (s : str) : truthy s = true ↔ (0 < length s)%nat.
Proof. destruct s; simpl; [split; [done | lia] | split; [lia | done]]. Qed.

Lemma re_digits_spec (lo hi : nat) (s : str) :
  re_digits lo hi s = true ↔
  Forall (λ c, re_digit c = true) s ∧ (lo ≤ length s ≤ hi)%nat.
Proof.
  unfold re_digits. rewrite !andb_true_iff, forallb_forall.
  rewrite Nat.leb_le, Nat.leb_le, Forall_forall.
  setoid_rewrite <- list_elem_of_In. tauto.
Qed.

(** What [re.fullmatch(r"\d{8}|\d{12,14}", s)] accepts. *)
Lemma fullmatch_barcode_spec (s : str) :
  fullmatch_barcode s = true ↔
  Forall (λ c, re_digit c = true) s ∧
  (length s = 8 ∨ 12 ≤ length s ≤ 14)%nat.
Proof.
  unfold fullmatch_barcode. rewrite orb_true_iff, !re_digits_spec.
  split.
  - intros [[? ?]|[? ?]]; (split; [done | lia]).
  - intros [? [?|?]]; [left | right]; (split; [done | lia]).
Qed.

Lemma fullmatch_barcode_truthy (s : str) :
  fullmatch_barcode s = true → truthy s = true.
Proof.
  rewrite fullmatch_barcode_spec, truthy_length. intros [_ ?]; lia.
Qed.

(** The verdict of [valid_barcode] depends on the trimmed code only. *)
Lemma valid_barcode_strip (c : str) :
  valid_barcode (Some c) = fullmatch_barcode (strip c).
Proof.
  simpl. destruct c as [|d c]; [done|]. done.
Qed.
End StringFacts.

(** ** Identifier validation *)

Section NormalizerFacts.
Context `{PyUnicode}.

Lemma product_to_row_barcode (p : RawProduct) (category : option str)
    (r : Row) :
  product_to_row p category = Some r →
  ∃ c, code p = Some c ∧ row_barcode r = Some (strip c) ∧
       fullmatch_barcode (strip c) = true.
Proof.
  unfold product_to_row. destruct (valid_barcode (code p)) eqn:Hv; [|done].
  intros [= <-]. destruct (code p) as [c|] eqn:Hc; [|done].
  exists c. by rewrite <- valid_barcode_strip.
Qed.

(** C2. [valid_barcode] is a total boolean function: it answers [true]
    exactly for a present string that, once trimmed, consists of 8 or of
    12 to 14 characters of the class [\d], and [false] for every other
    candidate (absent, wrong length, a non-digit character); and
    [product_to_row] returns [None] exactly for the records whose
    identifier [valid_barcode] rejects. *)
Theorem valid_barcode_iff (i : option str) (p : RawProduct)
    (category : option str) :
  (valid_barcode i = true ↔
     ∃ s, i = Some s ∧ Forall (λ c, re_digit c = true) (strip s) ∧
          (length (strip s) = 8 ∨ 12 ≤ length (strip s) ≤ 14)%nat) ∧
  (valid_barcode i = false ↔
     ¬ ∃ s, i = Some s ∧ Forall (λ c, re_digit c = true) (strip s) ∧
            (length (strip s) = 8 ∨ 12 ≤ length (strip s) ≤ 14)%nat) ∧
  (product_to_row p category = None ↔ valid_barcode (code p) = false).
Proof.
  assert (Hiff : valid_barcode i = true ↔
     ∃ s, i = Some s ∧ Forall (λ c, re_digit c = true) (strip s) ∧
          (length (strip s) = 8 ∨ 12 ≤ length (strip s) ≤ 14)%nat).
  { destruct i as [s|].
    - rewrite valid_barcode_strip, fullmatch_barcode_spec. split.
      + intros [? ?]. by exists s.
      + by intros (? & [= <-] & ? & ?).
    - simpl. split; [done | by intros (? & ? & _)]. }
  split; [exact Hiff|]. split.
  - rewrite <- Hiff. by destruct (valid_barcode i).
  - unfold product_to_row. by destruct (valid_barcode (code p)).
Qed.
End NormalizerFacts.

(** ** Name resolution *)

Section NameFacts.
Context `{PyUnicode}.

Lemma normalize_name_nonempty (p : RawProduct) :
  truthy (normalize_name p) = true.
Proof.
  unfold normalize_name. cbv zeta.
  match goal with
  | |- truthy (if truthy ?n then _ else _) = true =>
      destruct (truthy n) eqn:E; [exact E | done]
  end.
Qed.

(** A localized name with a non-blank character wins, trimmed. *)
Lemma normalize_name_localized (p : RawProduct) (s : str) :
  product_name_de p = Some s → truthy (strip s) = true →
  normalize_name p = strip s.
Proof.
  intros Hde Hs. unfold normalize_name. rewrite Hde. simpl.
  destruct (truthy s) eqn:Es.
  - by rewrite Hs, Hs.
  - destruct s; [|done]. by rewrite strip_nil in Hs.
Qed.

(** With the localized name absent or the empty string, a generic name
    with a non-blank character wins, trimmed. *)
Lemma normalize_name_generic (p : RawProduct) (g : str) :
  get_or (product_name_de p) [] = [] →
  product_name p = Some g → truthy (strip g) = true →
  normalize_name p = strip g.
Proof.
  intros Hde Hg Hs. unfold normalize_name. rewrite Hg.
  assert (get_or (product_name_de p) (get_or (Some g) []) = g) as ->.
  { assert (truthy g = true) as Hg'.
    { destruct g; [by rewrite strip_nil in Hs | done]. }
    destruct (product_name_de p) as [s|]; simpl in *; rewrite ?Hg'; [|done].
    destruct (truthy s) eqn:Es; [|done]. by subst s. }
  by rewrite Hs, Hs.
Qed.

(** A localized name that is not empty but consists of whitespace hides
    the generic name: the result is the humanized first tag or, without
    tags, the placeholder. *)
Lemma normalize_name_blank_localized (p : RawProduct) (s : str) :
  product_name_de p = Some s → truthy s = true → strip s = [] →
  categories_tags p = [] →
  normalize_name p = lit "Unbenanntes Produkt".
Proof.
  intros Hde Hs Hstrip Htags. unfold normalize_name.
  rewrite Hde, Htags. simpl. by rewrite Hs, Hstrip.
Qed.

(** A name taken from the localized or generic field carries no
    surrounding whitespace. *)
Lemma normalize_name_from_names_trimmed (p : RawProduct) :
  truthy (strip (get_or (product_name_de p) (get_or (product_name p) [])))
    = true →
  strip (normalize_name p) = normalize_name p.
Proof.
  intros Hn. unfold normalize_name. rewrite Hn, Hn. apply strip_idemp.
Qed.

(** C9 (amended). When the resolved name of a record carries no leading or
    trailing whitespace, every record whose localized name is that
    resolved name resolves to the same name again. *)
Theorem normalize_name_idempotent_trimmed (p p' : RawProduct) :
  strip (normalize_name p) = normalize_name p →
  product_name_de p' = Some (normalize_name p) →
  normalize_name p' = normalize_name p.
Proof.
  intros Htrim Hde.
  pose proof (normalize_name_nonempty p) as Hne.
  rewrite (normalize_name_localized p' (normalize_name p) Hde).
  - exact Htrim.
  - by rewrite Htrim.
Qed.
End NameFacts.

(** C3, at a record whose localized name is two spaces and whose generic
    name is "Apfel": the code answers the placeholder, not the generic
    name. *)
Theorem normalize_name_whitespace_localized :
  @normalize_name basic_latin (product_with_names "  " "Apfel")
  = lit "Unbenanntes Produkt".
Proof. vm_compute. reflexivity. Qed.

Lemma normalize_name_idempotent_trimmed_witness :
  let p := product_with_names " Bio Apfel " "" in
  @strip basic_latin (@normalize_name basic_latin p)
    = @normalize_name basic_latin p ∧
  @normalize_name basic_latin (product_named (@normalize_name basic_latin p))
    = @normalize_name basic_latin p.
Proof.
  split; [vm_compute; reflexivity|].
  apply (@normalize_name_idempotent_trimmed basic_latin);
    vm_compute; reflexivity.
Defined.

(** C9 as stated fails: the first tag "en:-foo" resolves to " Foo", and a
    record whose localized name is " Foo" resolves to "Foo". *)
Lemma normalize_name_not_idempotent :
  let n := @normalize_name basic_latin (product_with_tag "en:-foo") in
  n = lit " Foo" ∧
  @normalize_name basic_latin (product_named n) = lit "Foo" ∧
  @normalize_name basic_latin (product_named n) ≠ n.
Proof. vm_compute. repeat split; congruence. Qed.

(** ** Deduplication *)

Lemma foldl_dedupe_step (rows : list Row) (seen : gset str) (out : list Row) :
  (foldl dedupe_step (seen, out) rows).2 = out ++ dedupe_from seen rows.
Proof.
  revert seen out. induction rows as [|r rows IH]; intros seen out; simpl.
  - by rewrite app_nil_r.
  - unfold dedupe_step at 2. simpl.
    destruct (row_barcode r) as [bc|]; [|apply IH].
    destruct (truthy bc && bool_decide (bc ∉ seen)); [|apply IH].
    rewrite IH. by rewrite <- app_assoc.
Qed.

Lemma dedupe_dedupe_from (rows : list Row) :
  dedupe rows = dedupe_from ∅ rows.
Proof. unfold dedupe. by rewrite foldl_dedupe_step. Qed.

(** The three ways a row is passed over, and the one way it is kept. *)
Lemma dedupe_from_cons (seen : gset str) (r : Row) (rest : list Row) :
  (∃ bc, row_barcode r = Some bc ∧ bc ≠ [] ∧ (bc ∉ seen) ∧
         dedupe_from seen (r :: rest)
         = r :: dedupe_from ({[bc]} ∪ seen) rest) ∨
  ((∀ bc, row_barcode r = Some bc → bc = [] ∨ bc ∈ seen) ∧
   dedupe_from seen (r :: rest) = dedupe_from seen rest).
Proof.
  simpl. destruct (row_barcode r) as [bc|] eqn:Hbc; [|by right].
  destruct (truthy bc) eqn:Ht; simpl.
  - case_bool_decide as Hs.
    + left. exists bc. by rewrite <- truthy_true.
    + right. split; [|done]. intros ? [= <-]. right.
      by destruct (decide (bc ∈ seen)).
  - right. split; [|done]. intros ? [= <-]. left. by destruct bc.
Qed.

Lemma dedupe_from_elem (rows : list Row) (seen : gset str) (r : Row) :
  r ∈ dedupe_from seen rows →
  r ∈ rows ∧ ∃ bc, row_barcode r = Some bc ∧ bc ≠ [] ∧ bc ∉ seen.
Proof.
  revert seen. induction rows as [|x rows IH]; intros seen.
  - simpl. by intros ?%elem_of_nil.
  - destruct (dedupe_from_cons seen x rows)
      as [(bc & Hbc & Hne & Hns & ->)|[_ ->]].
    + intros [->|Hin]%elem_of_cons.
      * split; [left | by exists bc].
      * destruct (IH _ Hin) as [? (bc' & ? & ? & Hns')].
        split; [by right|]. exists bc'. repeat split; [done..|].
        intros ?. apply Hns', elem_of_union. by right.
    + intros Hin. destruct (IH _ Hin) as [? ?]. split; [by right | done].
Qed.

Lemma dedupe_from_NoDup (rows : list Row) (seen : gset str) :
  NoDup (row_barcode <$> dedupe_from seen rows).
Proof.
  revert seen. induction rows as [|x rows IH]; intros seen.
  - simpl. constructor.
  - destruct (dedupe_from_cons seen x rows)
      as [(bc & Hbc & Hne & Hns & ->)|[_ ->]]; [|apply IH].
    rewrite fmap_cons. constructor; [|apply IH].
    intros (r & Hr & Hin)%list_elem_of_fmap.
    apply dedupe_from_elem in Hin as [_ (bc' & Hbc' & _ & Hns')].
    rewrite Hbc in Hr. rewrite Hbc' in Hr. set_solver.
Qed.

Lemma dedupe_from_sublist (rows : list Row) (seen : gset str) :
  sublist (dedupe_from seen rows) rows.
Proof.
  revert seen. induction rows as [|x rows IH]; intros seen.
  - simpl. constructor.
  - destruct (dedupe_from_cons seen x rows)
      as [(bc & Hbc & Hne & Hns & ->)|[_ ->]].
    + by constructor.
    + by constructor.
Qed.

Lemma dedupe_from_first (rows : list Row) (seen : gset str) (r : Row) :
  r ∈ dedupe_from seen rows →
  ∃ i, rows !! i = Some r ∧
       ∀ j r', (j < i)%nat → rows !! j = Some r' →
               row_barcode r' ≠ row_barcode r.
Proof.
  revert seen. induction rows as [|x rows IH]; intros seen.
  - simpl. by intros ?%elem_of_nil.
  - destruct (dedupe_from_cons seen x rows)
      as [(bc & Hbc & Hne & Hns & ->)|[Hx ->]].
    + intros [->|Hin]%elem_of_cons.
      * exists 0%nat. split; [done|]. intros; lia.
      * destruct (dedupe_from_elem _ _ _ Hin) as [_ (bc' & Hbc' & _ & Hns')].
        destruct (IH _ Hin) as (i & Hi & Hfirst).
        exists (S i). split; [done|].
        intros [|j] r' Hj Hr'; simpl in Hr'.
        -- injection Hr' as <-. rewrite Hbc, Hbc'. set_solver.
        -- apply (Hfirst j); [lia | done].
    + intros Hin.
      destruct (dedupe_from_elem _ _ _ Hin) as [_ (bc' & Hbc' & Hne' & Hns')].
      destruct (IH _ Hin) as (i & Hi & Hfirst).
      exists (S i). split; [done|].
      intros [|j] r' Hj Hr'; simpl in Hr'.
      * injection Hr' as <-. rewrite Hbc'. intros Hx'.
        destruct (Hx _ Hx'); congruence.
      * apply (Hfirst j); [lia | done].
Qed.

Lemma dedupe_from_complete (rows : list Row) (seen : gset str) (r : Row)
    (bc : str) :
  r ∈ rows → row_barcode r = Some bc → bc ≠ [] → bc ∉ seen →
  ∃ r', r' ∈ dedupe_from seen rows ∧ row_barcode r' = Some bc.
Proof.
  revert seen. induction rows as [|x rows IH]; intros seen Hin Hbc Hne Hns.
  - by apply elem_of_nil in Hin.
  - destruct (dedupe_from_cons seen x rows)
      as [(bx & Hbx & Hnex & Hnsx & ->)|[Hx ->]].
    + destruct (decide (bx = bc)) as [->|Hdiff].
      * exists x. split; [left | done].
      * apply elem_of_cons in Hin as [->|Hin]; [congruence|].
        destruct (IH ({[bx]} ∪ seen) Hin Hbc Hne) as (r' & ? & ?).
        { rewrite not_elem_of_union, not_elem_of_singleton. by split. }
        exists r'. split; [by right | done].
    + apply elem_of_cons in Hin as [->|Hin].
      * destruct (Hx _ Hbc); congruence.
      * by apply IH.
Qed.

(** C4. The output of [dedupe] holds no identifier twice; every row in it
    has a present, non-empty identifier and is the first row of the input
    with that identifier; the output is a subsequence of the input (relative
    order is kept); and every present, non-empty identifier of the input
    survives. *)
Theorem dedupe_first_occurrences (rows : list Row) :
  NoDup (row_barcode <$> dedupe rows) ∧
  sublist (dedupe rows) rows ∧
  Forall (λ r,
    (∃ bc, row_barcode r = Some bc ∧ bc ≠ []) ∧
    ∃ i, rows !! i = Some r ∧
         ∀ j r', (j < i)%nat → rows !! j = Some r' →
                 row_barcode r' ≠ row_barcode r) (dedupe rows) ∧
  Forall (λ r,
    ∀ bc, row_barcode r = Some bc → bc ≠ [] →
          ∃ r', r' ∈ dedupe rows ∧ row_barcode r' = Some bc) rows.
Proof.
  rewrite dedupe_dedupe_from. repeat split.
  - apply dedupe_from_NoDup.
  - apply dedupe_from_sublist.
  - apply Forall_forall. intros r Hin. split.
    + apply dedupe_from_elem in Hin as [_ (bc & ? & ? & _)]. by exists bc.
    + by apply dedupe_from_first in Hin.
  - apply Forall_forall. intros r Hin bc Hbc Hne.
    apply (dedupe_from_complete rows ∅ r bc); [done..|set_solver].
Qed.

(** ** Intake *)

Lemma CATEGORIES_length : length CATEGORIES = 13%nat.
Proof. reflexivity. Qed.

Section IntakeFacts.
Context `{PyUnicode}.
Variable existing : gset str.
Variable fetch_category : str → Z → list RawProduct.

Lemma valid_by_identifier (p : RawProduct) :
  valid_barcode (code p)
  = match identifier p with
    | Some id => fullmatch_barcode id
    | None => false
    end.
Proof.
  unfold identifier. destruct (code p) as [c|]; [|done].
  apply valid_barcode_strip.
Qed.

Lemma product_to_row_valid (p : RawProduct) (cat : str) :
  valid_barcode (code p) = true →
  ∃ r id, product_to_row p (Some cat) = Some r ∧ identifier p = Some id ∧
          row_barcode r = Some id ∧ getitem_barcode r = id ∧ id ≠ [] ∧
          fullmatch_barcode id = true.
Proof.
  intros Hv. unfold product_to_row. rewrite Hv.
  rewrite valid_by_identifier in Hv. unfold identifier in *.
  destruct (code p) as [c|]; [|done]. simpl in *.
  eexists _, (strip c). repeat split; [|done].
  apply truthy_true. by apply fullmatch_barcode_truthy.
Qed.

Lemma product_to_row_invalid (p : RawProduct) (cat : option str) :
  valid_barcode (code p) = false → product_to_row p cat = None.
Proof. intros Hv. unfold product_to_row. by rewrite Hv. Qed.

Lemma intake_rows_cons (p : RawProduct) (cat : str)
    (recs : list (RawProduct * str)) :
  intake_rows existing ((p, cat) :: recs)
  = intake_rows existing [(p, cat)] ++ intake_rows existing recs.
Proof. unfold intake_rows. simpl. by rewrite app_nil_r. Qed.

Lemma intake_rows_app (recs1 recs2 : list (RawProduct * str)) :
  intake_rows existing (recs1 ++ recs2)
  = intake_rows existing recs1 ++ intake_rows existing recs2.
Proof. unfold intake_rows. apply bind_app. Qed.

Lemma intake_all_rows (cat : str) (st : State) (p : RawProduct) :
  all_rows (intake existing cat st p)
  = all_rows st ++ intake_rows existing [(p, cat)].
Proof.
  unfold intake, intake_rows. simpl.
  destruct (product_to_row p (Some cat)) as [r|]; simpl.
  - case_bool_decide; simpl; by rewrite ?app_nil_r.
  - by rewrite app_nil_r.
Qed.

Lemma intake_fetch_log (cat : str) (st : State) (p : RawProduct) :
  fetch_log (intake existing cat st p) = fetch_log st.
Proof.
  unfold intake. destruct (product_to_row p (Some cat)); [|done].
  by case_bool_decide.
Qed.

Lemma foldl_intake_all_rows (cat : str) (ps : list RawProduct) (st : State) :
  all_rows (foldl (intake existing cat) st ps)
  = all_rows st ++ intake_rows existing ((λ p, (p, cat)) <$> ps).
Proof.
  revert st. induction ps as [|p ps IH]; intros st.
  - simpl. by rewrite app_nil_r.
  - rewrite fmap_cons. cbn [foldl].
    rewrite IH, intake_all_rows, (intake_rows_cons p cat (_ <$> ps)).
    by rewrite <- app_assoc.
Qed.

Lemma foldl_intake_fetch_log (cat : str) (ps : list RawProduct) (st : State) :
  fetch_log (foldl (intake existing cat) st ps) = fetch_log st.
Proof.
  revert st. induction ps as [|p ps IH]; intros st; simpl; [done|].
  by rewrite IH, intake_fetch_log.
Qed.

Lemma foldl_intake_category (limit : Z) (cats : list str) (st : State) :
  all_rows (foldl (intake_category existing fetch_category limit) st cats)
  = all_rows st
    ++ intake_rows existing (fetched_for fetch_category limit cats) ∧
  fetch_log (foldl (intake_category existing fetch_category limit) st cats)
  = fetch_log st ++ ((λ c, (c, per_cat limit)) <$> cats).
Proof.
  revert st. induction cats as [|c cats IH]; intros st.
  - simpl. by rewrite !app_nil_r.
  - cbn [foldl].
    destruct (IH (intake_category existing fetch_category limit st c))
      as [-> ->].
    unfold intake_category.
    rewrite foldl_intake_all_rows, foldl_intake_fetch_log. cbn [all_rows fetch_log].
    unfold fetched_for. rewrite bind_cons, intake_rows_app, fmap_cons.
    by rewrite <- !app_assoc.
Qed.

Lemma collect_all_rows (limit : Z) :
  all_rows (collect existing fetch_category limit)
  = intake_rows existing (fetched fetch_category limit).
Proof.
  unfold collect.
  by destruct (foldl_intake_category limit CATEGORIES init_state) as [-> _].
Qed.

Lemma collect_fetch_log (limit : Z) :
  fetch_log (collect existing fetch_category limit)
  = (λ c, (c, per_cat limit)) <$> CATEGORIES.
Proof.
  unfold collect.
  by destruct (foldl_intake_category limit CATEGORIES init_state) as [_ ->].
Qed.

End IntakeFacts.

(** ** The accepted batch *)

Lemma slice_to_nonneg {A} (l : list A) (k : Z) :
  0 ≤ k → slice_to l k = take (Z.to_nat k) l.
Proof. intros Hk. unfold slice_to. by rewrite (proj2 (Z.ltb_ge k 0)). Qed.

Lemma slice_to_sublist {A} (l : list A) (k : Z) : sublist (slice_to l k) l.
Proof. unfold slice_to. destruct (k <? 0); apply sublist_take. Qed.

Section BatchFacts.
Context `{PyUnicode}.
Variable existing : gset str.
Variable fetch_category : str → Z → list RawProduct.

Lemma seen_after_snoc_rejected (seen : gset str) (earlier : list RawProduct)
    (p : RawProduct) :
  seen_after existing seen earlier →
  valid_barcode (code p) && negb (remote_known existing p) = false →
  seen_after existing seen (earlier ++ [p]).
Proof.
  intros Hinv Hrej id. rewrite (Hinv id). split.
  - intros (q & Hq & ?). exists q. split; [|done].
    apply elem_of_app. by left.
  - intros (q & [Hq| ->%list_elem_of_singleton]%elem_of_app & Hid & Hv & Hk).
    + by exists q.
    + exfalso. rewrite Hv in Hrej. unfold remote_known in Hrej.
      rewrite Hid in Hrej. simpl in Hrej.
      by rewrite bool_decide_eq_false_2 in Hrej.
Qed.

Lemma seen_after_snoc_accepted (seen : gset str) (earlier : list RawProduct)
    (p : RawProduct) (id : str) :
  seen_after existing seen earlier →
  valid_barcode (code p) = true → identifier p = Some id → id ∉ existing →
  seen_after existing ({[id]} ∪ seen) (earlier ++ [p]).
Proof.
  intros Hinv Hv Hid Hk id'. rewrite elem_of_union, elem_of_singleton.
  rewrite (Hinv id'). split.
  - intros [->|(q & Hq & ?)].
    + exists p. split; [|done]. apply elem_of_app. right. by left.
    + exists q. split; [|done]. apply elem_of_app. by left.
  - intros (q & [Hq| ->%list_elem_of_singleton]%elem_of_app & Hid' & ?).
    + right. by exists q.
    + left. congruence.
Qed.

(** Against the records taken in so far, "not yet seen" and "no earlier
    record has this identifier" agree for a valid, unknown record. *)
Lemma seen_after_first (seen : gset str) (earlier : list RawProduct)
    (p : RawProduct) (id : str) :
  seen_after existing seen earlier →
  valid_barcode (code p) = true → identifier p = Some id → id ∉ existing →
  id ∉ seen ↔ Forall (λ q, identifier q ≠ identifier p) earlier.
Proof.
  intros Hinv Hv Hid Hk. rewrite (Hinv id), Forall_forall. split.
  - intros Hno q Hq Heq. apply Hno. exists q.
    split; [done|]. split; [congruence|]. split; [|done].
    rewrite valid_by_identifier in *. by rewrite Heq.
  - intros Hall (q & Hq & Hidq & _). apply (Hall q Hq). congruence.
Qed.

Lemma dedupe_intake_rows (recs : list (RawProduct * str)) (seen : gset str)
    (earlier : list RawProduct) :
  seen_after existing seen earlier →
  dedupe_from seen (intake_rows existing recs)
  = accepted_per_spec existing earlier recs.
Proof.
  revert seen earlier.
  induction recs as [|[p cat] recs IH]; intros seen earlier Hinv; [done|].
  rewrite intake_rows_cons. cbn [accepted_per_spec].
  destruct (valid_barcode (code p)) eqn:Hv.
  - destruct (product_to_row_valid p cat Hv)
      as (r & id & Hrow & Hid & Hbc & Hget & Hne & _).
    unfold intake_rows at 1. simpl. rewrite Hrow, Hget.
    unfold remote_known at 1. rewrite Hid.
    case_bool_decide as Hk; simpl.
    + apply IH. apply seen_after_snoc_rejected; [done|].
      rewrite Hv. unfold remote_known. rewrite Hid. simpl.
      by rewrite bool_decide_eq_true_2.
    + rewrite Hbc. apply truthy_true in Hne. rewrite Hne. simpl.
      pose proof (seen_after_first seen earlier p id Hinv Hv Hid Hk) as Hfirst.
      rewrite Hid in Hfirst.
      case_bool_decide as Hs; case_bool_decide as Hf; simpl.
      * f_equal. apply IH. by apply seen_after_snoc_accepted.
      * tauto.
      * tauto.
      * apply IH. intros id'.
        destruct (seen_after_snoc_accepted seen earlier p id Hinv Hv Hid Hk id')
          as [H1 H2].
        split.
        -- intros ?. apply H1. apply elem_of_union. by right.
        -- intros Hq. apply H2 in Hq.
           apply elem_of_union in Hq as [->%elem_of_singleton|?]; [|done].
           by destruct (decide (id ∈ seen)).
  - unfold intake_rows at 1. simpl.
    rewrite (product_to_row_invalid p (Some cat) Hv). simpl.
    apply IH. apply seen_after_snoc_rejected; [done|]. by rewrite Hv.
Qed.

(** The rows of [accepted_per_spec] are those of the records that are
    valid, not in the snapshot, and preceded by no record with the same
    identifier, neither in [earlier] nor in [recs]. *)
Lemma accepted_per_spec_elem (recs : list (RawProduct * str))
    (earlier : list RawProduct) (r : Row) :
  r ∈ accepted_per_spec existing earlier recs ↔
  ∃ i p cat,
    recs !! i = Some (p, cat) ∧ product_to_row p (Some cat) = Some r ∧
    valid_barcode (code p) = true ∧ remote_known existing p = false ∧
    Forall (λ q, identifier q ≠ identifier p) earlier ∧
    ∀ j q c, (j < i)%nat → recs !! j = Some (q, c) →
             identifier q ≠ identifier p.
Proof.
  revert earlier. induction recs as [|[p0 c0] recs IH]; intros earlier.
  - simpl. split; [by intros ?%elem_of_nil | by intros (i & ? & ? & ? & _)].
  - cbn [accepted_per_spec]. rewrite elem_of_app, IH. split.
    + intros [Hhead|(i & p & cat & Hi & Hrow & Hv & Hk & Hall & Hfirst)].
      * destruct (valid_barcode (code p0)) eqn:Hv; [|by apply elem_of_nil in Hhead].
        destruct (remote_known existing p0) eqn:Hk; [by apply elem_of_nil in Hhead|].
        simpl in Hhead. case_bool_decide as Hall; [|by apply elem_of_nil in Hhead].
        destruct (product_to_row p0 (Some c0)) as [r0|] eqn:Hrow;
          [|by apply elem_of_nil in Hhead].
        apply list_elem_of_singleton in Hhead as ->.
        exists 0%nat, p0, c0. repeat split; try done. intros; lia.
      * apply Forall_app in Hall as [Hall Hp0].
        exists (S i), p, cat. repeat split; try done.
        intros [|j] q c Hj Hq; simpl in Hq.
        -- injection Hq as <- <-. by inv Hp0.
        -- apply (Hfirst j q c); [lia | done].
    + intros (i & p & cat & Hi & Hrow & Hv & Hk & Hall & Hfirst).
      destruct i as [|i]; simpl in Hi.
      * injection Hi as <- <-. left. rewrite Hv, Hk. simpl.
        rewrite bool_decide_eq_true_2 by done. rewrite Hrow. by left.
      * right. exists i, p, cat. repeat split; try done.
        -- apply Forall_app. split; [done|]. apply Forall_singleton.
           apply (Hfirst 0%nat p0 c0); [lia | done].
        -- intros j q c Hj Hq. apply (Hfirst (S j) q c); [lia | done].
Qed.

(** The batch after deduplication, before truncation. *)
Lemma dedupe_collect (limit : Z) :
  dedupe (all_rows (collect existing fetch_category limit))
  = accepted_per_spec existing [] (fetched fetch_category limit).
Proof.
  rewrite collect_all_rows, dedupe_dedupe_from.
  apply dedupe_intake_rows. intros id. split.
  - by intros ?%not_elem_of_empty.
  - by intros (q & ?%elem_of_nil & _).
Qed.

(** C1 (amended). For a limit [L ≥ 0], the rows written are the first [L],
    in acceptance order, of the rows that are valid, not in the snapshot and
    the first occurrence of their identifier in the run; there are at most
    [L] of them, and they are all of those rows when these number at most
    [L]. *)
Theorem written_rows_first_accepted (L : Z) :
  0 ≤ L →
  written_rows existing fetch_category L
  = take (Z.to_nat L)
      (accepted_per_spec existing [] (fetched fetch_category L)) ∧
  Z.of_nat (length (written_rows existing fetch_category L)) ≤ L ∧
  (Z.of_nat (length
     (accepted_per_spec existing [] (fetched fetch_category L))) ≤ L →
   written_rows existing fetch_category L
   = accepted_per_spec existing [] (fetched fetch_category L)).
Proof.
  intros HL. unfold written_rows.
  rewrite dedupe_collect, slice_to_nonneg by done.
  split; [done|]. split.
  - rewrite length_take. lia.
  - intros Hlen. apply take_ge. lia.
Qed.

(** The rows written never hold one identifier twice, whatever the limit. *)
Lemma written_rows_NoDup (L : Z) :
  NoDup (row_barcode <$> written_rows existing fetch_category L).
Proof.
  unfold written_rows.
  eapply sublist_NoDup; [|apply fmap_sublist, slice_to_sublist].
  rewrite dedupe_dedupe_from. apply dedupe_from_NoDup.
Qed.
End BatchFacts.

(** ** Statistics *)

Lemma sum_cat_insert (field : Stats → nat) (cat : str) (v : Stats)
    (m : gmap str Stats) :
  field zero_stats = 0%nat →
  (sum_cat field (<[cat := v]> m) + field (cat_stats m cat)
   = sum_cat field m + field v)%nat.
Proof.
  intros Hzero. unfold sum_cat, cat_stats.
  destruct (m !! cat) as [s|] eqn:Hm; simpl.
  - rewrite <- (insert_delete_eq m cat v).
    rewrite map_fold_insert_L; [|intros; lia|apply lookup_delete_eq].
    rewrite (map_fold_delete_L _ _ cat s m); [lia|intros; lia|done].
  - rewrite map_fold_insert_L; [lia|intros; lia|done].
Qed.

Lemma cat_stats_bump (f : Stats → Stats) (cat : str) (m : gmap str Stats) :
  cat_stats (bump f cat m) cat = f (cat_stats m cat).
Proof. unfold bump, cat_stats at 1. by rewrite lookup_insert_eq. Qed.

Lemma sum_cat_bump_same (field : Stats → nat) (f : Stats → Stats)
    (cat : str) (m : gmap str Stats) :
  field zero_stats = 0%nat → (∀ s, field (f s) = S (field s)) →
  sum_cat field (bump f cat m) = S (sum_cat field m).
Proof.
  intros Hzero Hf. unfold bump.
  pose proof (sum_cat_insert field cat (f (cat_stats m cat)) m Hzero) as Hs.
  rewrite Hf in Hs. lia.
Qed.

Lemma sum_cat_bump_other (field : Stats → nat) (f : Stats → Stats)
    (cat : str) (m : gmap str Stats) :
  field zero_stats = 0%nat → (∀ s, field (f s) = field s) →
  sum_cat field (bump f cat m) = sum_cat field m.
Proof.
  intros Hzero Hf. unfold bump.
  pose proof (sum_cat_insert field cat (f (cat_stats m cat)) m Hzero) as Hs.
  rewrite Hf in Hs. lia.
Qed.

Section StatisticsFacts.
Context `{PyUnicode}.
Variable existing : gset str.
Variable fetch_category : str → Z → list RawProduct.

Lemma rejected_for_format_app (l1 l2 : list (RawProduct * str)) :
  rejected_for_format (l1 ++ l2)
  = (rejected_for_format l1 + rejected_for_format l2)%nat.
Proof. unfold rejected_for_format. by rewrite filter_app, length_app. Qed.

Lemma skipped_as_known_app (l1 l2 : list (RawProduct * str)) :
  skipped_as_known existing (l1 ++ l2)
  = (skipped_as_known existing l1 + skipped_as_known existing l2)%nat.
Proof. unfold skipped_as_known. by rewrite filter_app, length_app. Qed.

Lemma balanced_intake (cat : str) (st : State) (p : RawProduct)
    (recs : list (RawProduct * str)) :
  balanced existing recs st →
  balanced existing (recs ++ [(p, cat)]) (intake existing cat st p).
Proof.
  intros (Hnew & Himp & Hskip & Hknown). unfold balanced.
  rewrite rejected_for_format_app, skipped_as_known_app.
  unfold rejected_for_format at 2, skipped_as_known at 2.
  rewrite !filter_cons, !filter_nil. simpl.
  unfold intake. destruct (valid_barcode (code p)) eqn:Hv.
  - destruct (product_to_row_valid p cat Hv)
      as (r & id & -> & Hid & _ & Hget & _ & _).
    unfold remote_known. rewrite Hid, Hget.
    rewrite !decide_False by done.
    case_bool_decide as Hk; simpl.
    + rewrite sum_cat_bump_other, sum_cat_bump_other, sum_cat_bump_same
        by done. lia.
    + rewrite sum_cat_bump_same, sum_cat_bump_other, sum_cat_bump_other
        by done. lia.
  - rewrite (product_to_row_invalid p (Some cat) Hv).
    rewrite decide_True by done. rewrite decide_False by (by intros [? _]).
    simpl.
    rewrite sum_cat_bump_other, sum_cat_bump_other, sum_cat_bump_same
      by done. lia.
Qed.

Lemma balanced_foldl_intake (cat : str) (ps : list RawProduct) (st : State)
    (recs : list (RawProduct * str)) :
  balanced existing recs st →
  balanced existing (recs ++ ((λ p, (p, cat)) <$> ps))
    (foldl (intake existing cat) st ps).
Proof.
  revert st recs. induction ps as [|p ps IH]; intros st recs Hb.
  - simpl. by rewrite app_nil_r.
  - rewrite fmap_cons. cbn [foldl].
    rewrite cons_middle, (assoc_L (++)). apply IH.
    by apply balanced_intake.
Qed.

Lemma balanced_foldl_intake_category (limit : Z) (cats : list str)
    (st : State) (recs : list (RawProduct * str)) :
  balanced existing recs st →
  balanced existing (recs ++ fetched_for fetch_category limit cats)
    (foldl (intake_category existing fetch_category limit) st cats).
Proof.
  revert st recs. induction cats as [|c cats IH]; intros st recs Hb.
  - simpl. by rewrite app_nil_r.
  - cbn [foldl]. unfold fetched_for. rewrite bind_cons, (assoc_L (++)).
    apply IH. unfold intake_category. by apply balanced_foldl_intake.
Qed.

Lemma balanced_collect (limit : Z) :
  balanced existing (fetched fetch_category limit)
    (collect existing fetch_category limit).
Proof.
  apply (balanced_foldl_intake_category limit CATEGORIES init_state []).
  by repeat split.
Qed.
End StatisticsFacts.

(** ** Import *)

Section ImportFacts.
Context `{PyUnicode} {R : Type} `{Remote R}.

(** [create_product] by the outcome of its two requests. *)
Lemma create_product_cases (row : Row) (qu loc : Z) (s : R) :
  create_product row qu loc s
  = match remote_post (product_request row qu loc) s with
    | (Ok (Some pid), s1) =>
        match remote_post (PostProductBarcode pid (getitem_barcode row)) s1
        with
        | (Ok _, s2) => (Ok (Some pid), s2)
        | (Raise HTTPError, s2) => (Ok None, s2)
        | (Raise OtherError, s2) => (Raise OtherError, s2)
        end
    | (Ok None, s1) => (Raise OtherError, s1)
    | (Raise HTTPError, s1) => (Ok None, s1)
    | (Raise OtherError, s1) => (Raise OtherError, s1)
    end.
Proof.
  unfold create_product, except_HTTPError, post_created_id, product_request.
  unfold mbind, Api_bind, bind, mret, ret, raise.
  destruct (remote_post _ s) as [[[pid|]|[]] s1]; try done.
  by destruct (remote_post _ s1) as [[?|[]] s2].
Qed.

(** A product request refused with an HTTP error status gives [None]. *)
Lemma create_product_refused (row : Row) (qu loc : Z) (s s1 : R) :
  remote_post (product_request row qu loc) s = (Raise HTTPError, s1) →
  create_product row qu loc s = (Ok None, s1).
Proof. intros Hp. by rewrite create_product_cases, Hp. Qed.

Lemma import_rows_cons (qu loc : Z) (r : Row) (rest : list Row) (st : State)
    (s : R) :
  import_rows qu loc (r :: rest) st s
  = match create_product r qu loc s with
    | (Ok pid, s') =>
        import_rows qu loc rest
          (if truthy_pid pid then count_imported r st else st) s'
    | (Raise e, s') => (Raise e, st, s')
    end.
Proof. done. Qed.

(** C10. When the product request succeeds and the barcode request that
    follows is refused with an HTTP error status, [create_product] returns
    [None], as it does when the product request itself is refused; the
    import loop goes on with the next row on unchanged counters, and the
    server is left in the state reached after both requests, product
    created. *)
Theorem create_product_orphan (row : Row) (qu loc pid : Z) (s s1 s2 : R)
    (rest : list Row) (st : State) :
  remote_post (product_request row qu loc) s = (Ok (Some pid), s1) →
  remote_post (PostProductBarcode pid (getitem_barcode row)) s1
  = (Raise HTTPError, s2) →
  create_product row qu loc s = (Ok None, s2) ∧
  (∀ t t1, remote_post (product_request row qu loc) t = (Raise HTTPError, t1) →
           (create_product row qu loc t).1
           = (create_product row qu loc s).1) ∧
  import_rows qu loc (row :: rest) st s = import_rows qu loc rest st s2 ∧
  import_rows qu loc [row] st s = (Ok tt, st, s2).
Proof.
  intros Hp Hb.
  assert (create_product row qu loc s = (Ok None, s2)) as Hc.
  { by rewrite create_product_cases, Hp, Hb. }
  split; [done|]. split.
  - intros t t1 Ht. by rewrite (create_product_refused row qu loc t t1 Ht), Hc.
  - by rewrite !import_rows_cons, Hc.
Qed.

Lemma create_product_by_status (row : Row) (qu loc : Z) (s : R) :
  fails_by_status_only →
  ∃ v s', create_product row qu loc s = (Ok v, s') ∧
    (v = None ↔
       (remote_post (product_request row qu loc) s).1 = Raise HTTPError ∨
       ∃ pid s1,
         remote_post (product_request row qu loc) s = (Ok (Some pid), s1) ∧
         (remote_post (PostProductBarcode pid (getitem_barcode row)) s1).1
         = Raise HTTPError).
Proof.
  intros Hfail. rewrite create_product_cases.
  pose proof (Hfail (product_request row qu loc) s) as Hp.
  destruct (remote_post (product_request row qu loc) s)
    as [[[pid|]|[]] s1] eqn:Ep; simpl in Hp.
  - pose proof (Hfail (PostProductBarcode pid (getitem_barcode row)) s1) as Hb.
    destruct (remote_post (PostProductBarcode pid (getitem_barcode row)) s1)
      as [[b|[]] s2] eqn:Eb; simpl in Hb.
    + eexists _, _. split; [done|]. split; [done|].
      intros [?|(pid' & s1' & [= <- <-] & Hr)]; [done|].
      by rewrite Eb in Hr.
    + eexists _, _. split; [done|]. split; [|done].
      intros _. right. exists pid, s1. by rewrite Eb.
    + done.
  - by destruct Hp as (? & ? & ?).
  - eexists _, _. split; [done|]. split; [|done]. intros _. by left.
  - done.
Qed.

Lemma import_rows_by_status (qu loc : Z) (rows : list Row) (st : State)
    (s : R) :
  fails_by_status_only → (import_rows qu loc rows st s).1.1 = Ok tt.
Proof.
  intros Hfail. revert st s.
  induction rows as [|r rows IH]; intros st s; [done|].
  rewrite import_rows_cons.
  destruct (create_product_by_status r qu loc s Hfail) as (v & s' & -> & _).
  apply IH.
Qed.

End ImportFacts.

(** ** The run *)

Section RunFacts.
Context `{PyUnicode} {R : Type} `{Remote R}.
Variable existing : gset str.
Variable fetch_category : str → Z → list RawProduct.

Lemma balanced_count_imported (recs : list (RawProduct * str)) (r : Row)
    (st : State) :
  balanced existing recs st → balanced existing recs (count_imported r st).
Proof.
  intros (Hnew & Himp & Hskip & Hknown). unfold balanced, count_imported.
  simpl.
  rewrite sum_cat_bump_other, sum_cat_bump_same, sum_cat_bump_other by done.
  repeat split; [done | lia | done | done].
Qed.

Lemma balanced_with_rows (recs : list (RawProduct * str)) (st : State)
    (rows : list Row) :
  balanced existing recs st →
  balanced existing recs
    {| stats_total := stats_total st; stats_cat := stats_cat st;
       all_rows := rows; fetch_log := fetch_log st |}.
Proof. done. Qed.

Lemma balanced_import_rows (recs : list (RawProduct * str)) (qu loc : Z)
    (rows : list Row) (st : State) (s : R) :
  balanced existing recs st →
  balanced existing recs (import_rows qu loc rows st s).1.2.
Proof.
  revert st s. induction rows as [|r rows IH]; intros st s Hb; [done|].
  rewrite import_rows_cons.
  destruct (create_product r qu loc s) as [[pid|e] s']; [|done].
  apply IH. destruct (truthy_pid pid); [|done].
  by apply balanced_count_imported.
Qed.

Lemma balanced_import_phase (recs : list (RawProduct * str))
    (do_import : bool) (rows : list Row) (st : State) (s : R) :
  balanced existing recs st →
  balanced existing recs (import_phase do_import rows st s).1.2.
Proof.
  intros Hb. unfold import_phase.
  destruct (do_import && bool_decide (rows ≠ [])); [|done].
  destruct (ensure_unit unit_name s) as [[qu|e] s1]; [|done].
  destruct (ensure_location location_name s1) as [[loc|e] s2]; [|done].
  by apply balanced_import_rows.
Qed.

(** C6 (amended). When a run ends, or is aborted by an exception of the
    import, the aggregate [new] and [imported] counters equal the sums of the
    per-category counters; the aggregate [skip] counter counts the records
    skipped as already known, and the per-category [skip] counters sum to it
    plus the number of records rejected for the format of their
    identifier. *)
Theorem run_statistics (L : Z) (do_import : bool) (s : R) :
  let st := (run existing fetch_category L do_import s).1.2 in
  new (stats_total st) = sum_cat new (stats_cat st) ∧
  imported (stats_total st) = sum_cat imported (stats_cat st) ∧
  skip (stats_total st)
  = skipped_as_known existing (fetched fetch_category L) ∧
  sum_cat skip (stats_cat st)
  = (skip (stats_total st)
     + rejected_for_format (fetched fetch_category L))%nat.
Proof.
  unfold run. cbv zeta.
  set (rows := slice_to _ L).
  pose proof (balanced_import_phase _ do_import rows _ s
    (balanced_with_rows _ _ rows
       (balanced_collect existing fetch_category L)))
    as (Hnew & Himp & Hskip & Hknown).
  split; [exact Hnew|]. split; [exact Himp|]. split; [exact Hknown|].
  exact Hskip.
Qed.

(** C5 (amended). A record with a valid identifier that is not in the
    snapshot is taken in even when a row with the same identifier was
    accepted earlier in the run: it is appended to the accumulated rows and
    raises both the per-category and the aggregate [new] counter by one.
    The duplicate is dropped by [dedupe] after all categories have been
    processed: the rows written hold no identifier twice. *)
Theorem intake_counts_duplicate (cat : str) (st : State) (p : RawProduct)
    (r r0 : Row) (L : Z) :
  product_to_row p (Some cat) = Some r →
  getitem_barcode r ∉ existing →
  r0 ∈ all_rows st → row_barcode r0 = row_barcode r →
  all_rows (intake existing cat st p) = all_rows st ++ [r] ∧
  new (stats_total (intake existing cat st p)) = S (new (stats_total st)) ∧
  new (cat_stats (stats_cat (intake existing cat st p)) cat)
  = S (new (cat_stats (stats_cat st) cat)) ∧
  NoDup (row_barcode <$> written_rows existing fetch_category L).
Proof.
  intros Hrow Hk _ _. unfold intake. rewrite Hrow.
  rewrite bool_decide_eq_false_2 by done. cbn [all_rows stats_total stats_cat].
  rewrite cat_stats_bump.
  split; [reflexivity|]. split; [reflexivity|]. split; [reflexivity|].
  apply written_rows_NoDup.
Qed.
End RunFacts.

(** ** Concrete runs *)

Section Examples.
Local Existing Instance basic_latin.
Local Existing Instance scripted_server.
Local Existing Instance conflict_server.

(** The examples of the specification for identifier validation. *)
Example valid_barcode_examples :
  valid_barcode (Some (lit "4006381333931")) = true ∧
  valid_barcode (Some (lit "12345")) = false ∧
  valid_barcode (Some (lit " 40123456 ")) = true ∧
  valid_barcode (Some (lit "4006381333a31")) = false ∧
  valid_barcode (Some (lit "")) = false ∧
  valid_barcode None = false.
Proof. vm_compute. done. Qed.

Example product_to_row_example :
  product_to_row (product_with_code " 40123456 ") (Some (lit "Obst"))
  = Some (row_of_code "40123456" "Obst").
Proof. vm_compute. reflexivity. Qed.

Lemma written_rows_first_accepted_witness :
  let fetch := obst_only [product_with_code "40123456";
                          product_with_code "4006381333931";
                          product_with_code "40123456"] in
  0 ≤ 1 ∧
  written_rows ∅ fetch 1
  = take 1 (accepted_per_spec ∅ [] (fetched fetch 1)) ∧
  Z.of_nat (length (written_rows ∅ fetch 1)) ≤ 1.
Proof.
  intros fetch.
  assert (0 ≤ 1) as Hle by lia.
  destruct (written_rows_first_accepted ∅ fetch 1 Hle) as (Heq & Hlen & _).
  split; [exact Hle|]. split; [exact Heq | exact Hlen].
Defined.

(** C1 as stated fails.  With limit -1 and two distinct valid, unknown
    records, one row is written, which exceeds the limit; and with limit 1
    the second record, valid, unknown and the first of its identifier, is
    not among the rows written. *)
Lemma written_rows_not_exactly_accepted :
  let fetch := obst_only [product_with_code "40123456";
                          product_with_code "4006381333931"] in
  written_rows ∅ fetch (-1) = [row_of_code "40123456" "Obst"] ∧
  ¬ (Z.of_nat (length (written_rows ∅ fetch (-1))) ≤ -1) ∧
  accepted_per_spec ∅ [] (fetched fetch 1)
  = [row_of_code "40123456" "Obst"; row_of_code "4006381333931" "Obst"] ∧
  written_rows ∅ fetch 1 = [row_of_code "40123456" "Obst"] ∧
  row_of_code "4006381333931" "Obst" ∉ written_rows ∅ fetch 1.
Proof.
  intros fetch.
  assert (written_rows ∅ fetch (-1) = [row_of_code "40123456" "Obst"])
    as Hneg by (vm_compute; reflexivity).
  assert (written_rows ∅ fetch 1 = [row_of_code "40123456" "Obst"])
    as Hone by (vm_compute; reflexivity).
  rewrite Hneg, Hone. split; [done|]. split; [simpl; lia|].
  split; [vm_compute; reflexivity|]. split; [done|].
  intros [Heq|Hin%elem_of_nil]%elem_of_cons; [|done].
  by vm_compute in Heq.
Qed.

Lemma intake_counts_duplicate_witness :
  let p := product_with_code "40123456" in
  let r := row_of_code "40123456" "Obst" in
  let st := intake ∅ (lit "Obst") init_state p in
  product_to_row p (Some (lit "Obst")) = Some r ∧
  (getitem_barcode r ∉ (∅ : gset str)) ∧
  (r ∈ all_rows st) ∧
  all_rows (intake ∅ (lit "Obst") st p) = all_rows st ++ [r] ∧
  new (stats_total (intake ∅ (lit "Obst") st p)) = S (new (stats_total st)).
Proof.
  intros p r st.
  assert (product_to_row p (Some (lit "Obst")) = Some r) as Hrow
    by (vm_compute; reflexivity).
  assert (getitem_barcode r ∉ (∅ : gset str)) as Hk
    by apply not_elem_of_empty.
  assert (r ∈ all_rows st) as Hin by (vm_compute; left).
  destruct (intake_counts_duplicate ∅ (obst_only []) (lit "Obst") st p r r 0
              Hrow Hk Hin eq_refl) as (Hrows & Hnew & _).
  split; [exact Hrow|]. split; [exact Hk|]. split; [exact Hin|].
  split; [exact Hrows | exact Hnew].
Defined.

(** C5 as stated fails: the second of two records with the code "40123456"
    is not rejected when it is processed; it is appended to the accumulated
    rows and both [new] counters go from 1 to 2. *)
Lemma intake_keeps_in_run_duplicate :
  let p := product_with_code "40123456" in
  let r := row_of_code "40123456" "Obst" in
  let st := intake ∅ (lit "Obst") init_state p in
  let st' := intake ∅ (lit "Obst") st p in
  valid_barcode (code p) = true ∧
  all_rows st = [r] ∧
  all_rows st' = [r; r] ∧
  new (stats_total st) = 1%nat ∧
  new (stats_total st') = 2%nat ∧
  new (cat_stats (stats_cat st) (lit "Obst")) = 1%nat ∧
  new (cat_stats (stats_cat st') (lit "Obst")) = 2%nat ∧
  all_rows st' ≠ all_rows st ∧
  new (stats_total st') ≠ new (stats_total st).
Proof. vm_compute. repeat split; congruence. Qed.

(** C6 as stated fails: of the records "4006381333931" and "123" fetched
    under "Obst", the second raises the category's [skip] counter but not
    the aggregate one. *)
Lemma aggregate_skip_omits_invalid :
  let fetch := obst_only [product_with_code "4006381333931";
                          product_with_code "123"] in
  let st := (run ∅ fetch 200 false ([] : list (result (option Z)))).1.2 in
  new (stats_total st) = 1%nat ∧
  new (cat_stats (stats_cat st) (lit "Obst")) = 1%nat ∧
  skip (cat_stats (stats_cat st) (lit "Obst")) = 1%nat ∧
  sum_cat skip (stats_cat st) = 1%nat ∧
  skip (stats_total st) = 0%nat ∧
  skip (stats_total st) ≠ sum_cat skip (stats_cat st).
Proof. vm_compute. repeat split; congruence. Qed.



Lemma create_product_orphan_witness :
  let r := row_of_code "40123456" "Obst" in
  let s := [Ok (Some 7); Raise HTTPError] in
  remote_post (product_request r 1 1) s = (Ok (Some 7), [Raise HTTPError]) ∧
  remote_post (PostProductBarcode 7 (getitem_barcode r)) [Raise HTTPError]
  = (Raise HTTPError, []) ∧
  create_product r 1 1 s = (Ok None, []) ∧
  import_rows 1 1 [r] init_state s = (Ok tt, init_state, []).
Proof.
  intros r s.
  assert (remote_post (product_request r 1 1) s
          = (Ok (Some 7), [Raise HTTPError])) as Hp by reflexivity.
  assert (remote_post (PostProductBarcode 7 (getitem_barcode r))
            [Raise HTTPError] = (Raise HTTPError, [])) as Hb by reflexivity.
  destruct (create_product_orphan r 1 1 7 s [Raise HTTPError] [] []
              init_state Hp Hb) as (Hc & _ & _ & Hrun).
  split; [exact Hp|]. split; [exact Hb|].
  split; [exact Hc | exact Hrun].
Defined.

(** The end-to-end scenario of the specification with import: two accepted
    rows, the creation of the first refused; one row is imported and both
    are written. *)
Example run_with_one_refusal :
  let fetch := obst_only [product_with_code "40123456";
                          product_with_code "4006381333931"] in
  let out := run ∅ fetch 200 true ({[ lit "40123456" ]} : gset str) in
  out.1.1 = Ok tt ∧
  imported (stats_total out.1.2) = 1%nat ∧
  all_rows out.1.2
  = [row_of_code "40123456" "Obst"; row_of_code "4006381333931" "Obst"].
Proof. vm_compute. done. Qed.
End Examples.

(** * Further properties of the code *)

(** ** Trimming and tokens *)

Section TrimFacts.
Context `{PyUnicode}.

Lemma lstrip_app (s t : str) :
  lstrip (s ++ t) = if truthy (lstrip s) then lstrip s ++ t else lstrip t.
Proof.
  induction s as [|c s IH]; simpl; [done|].
  destruct (isspace c); [exact IH | done].
Qed.

Lemma lstrip_blank (ws : str) :
  Forall (λ c, isspace c = true) ws → lstrip ws = [].
Proof. induction 1 as [|c ws Hc _ IH]; simpl; [done|]. by rewrite Hc. Qed.

Lemma rstrip_app_blank (s ws : str) :
  Forall (λ c, isspace c = true) ws → rstrip (s ++ ws) = rstrip s.
Proof.
  intros Hws. unfold rstrip. rewrite reverse_app, lstrip_app.
  rewrite lstrip_blank; [done|]. by apply Forall_reverse.
Qed.

Lemma rstrip_nil : rstrip [] = [].
Proof. done. Qed.

(** Whitespace around a string does not survive [strip]. *)
Lemma strip_padded (ws s ws' : str) :
  Forall (λ c, isspace c = true) ws → Forall (λ c, isspace c = true) ws' →
  strip (ws ++ s ++ ws') = strip s.
Proof.
  intros Hws Hws'. unfold strip.
  rewrite lstrip_app, (lstrip_blank ws Hws). simpl.
  rewrite lstrip_app. destruct (truthy (lstrip s)) eqn:Hs.
  - by apply rstrip_app_blank.
  - rewrite (lstrip_blank ws' Hws'). by destruct (lstrip s).
Qed.

Lemma lstrip_suffix (s : str) : lstrip s `suffix_of` s.
Proof.
  induction s as [|c s IH]; simpl; [done|].
  destruct (isspace c); [by apply suffix_cons_r | done].
Qed.

Lemma strip_subseteq (s : str) : strip s ⊆ s.
Proof.
  unfold strip, rstrip. intros c Hc.
  rewrite elem_of_reverse in Hc.
  pose proof (elem_of_suffix _ _ _ Hc (lstrip_suffix _)) as Hc'.
  rewrite elem_of_reverse in Hc'.
  exact (elem_of_suffix _ _ _ Hc' (lstrip_suffix _)).
Qed.

Lemma split_head_no_sep (sep : char) (s : str) :
  sep ∉ default [] (head (split sep s)).
Proof.
  induction s as [|c s IH]; simpl; [apply not_elem_of_nil|].
  destruct (N.eqb_spec c sep) as [->|Hne]; simpl; [apply not_elem_of_nil|].
  destruct (split sep s) as [|w ws]; simpl in *.
  - intros [->|?%elem_of_nil]%elem_of_cons; done.
  - intros [->|?]%elem_of_cons; done.
Qed.

(** X1. Whitespace around a code changes neither the verdict of
    [valid_barcode] nor the identifier: a record whose code is another
    record's code padded with whitespace is valid exactly when the other is,
    and [product_to_row] gives both the same barcode. *)
Theorem padded_code_same_identifier (p p' : RawProduct)
    (ws s ws' : str) (cat cat' : option str) :
  Forall (λ c, isspace c = true) ws → Forall (λ c, isspace c = true) ws' →
  code p = Some s → code p' = Some (ws ++ s ++ ws') →
  valid_barcode (code p') = valid_barcode (code p) ∧
  identifier p' = identifier p ∧
  row_barcode <$> product_to_row p' cat'
  = row_barcode <$> product_to_row p cat.
Proof.
  intros Hws Hws' Hp Hp'.
  assert (valid_barcode (code p') = valid_barcode (code p)) as Hv.
  { rewrite Hp, Hp', !valid_barcode_strip. by rewrite strip_padded. }
  split; [exact Hv|]. split.
  - unfold identifier. rewrite Hp, Hp'. simpl. by rewrite strip_padded.
  - unfold product_to_row. rewrite Hv.
    destruct (valid_barcode (code p)); [|done]. simpl.
    rewrite Hp, Hp'. simpl. by rewrite strip_padded.
Qed.

(** X2. Every row that [product_to_row] builds has a non-empty name, a
    non-empty category and a barcode that carries no surrounding whitespace,
    consists of 8 or of 12 to 14 digit characters, and is itself accepted by
    [valid_barcode]. *)
Theorem product_to_row_canonical (p : RawProduct) (category : option str)
    (r : Row) :
  product_to_row p category = Some r →
  row_name r ≠ [] ∧ row_cat r ≠ [] ∧
  ∃ b, row_barcode r = Some b ∧ strip b = b ∧
       Forall (λ c, re_digit c = true) b ∧
       (length b = 8 ∨ 12 ≤ length b ≤ 14)%nat ∧
       valid_barcode (Some b) = true.
Proof.
  intros Hrow.
  destruct (product_to_row_barcode p category r Hrow) as (c & Hc & Hb & Hm).
  unfold product_to_row in Hrow.
  destruct (valid_barcode (code p)); [|done]. injection Hrow as <-.
  cbn [row_name row_cat row_barcode]. split; [|split].
  - apply truthy_true, normalize_name_nonempty.
  - destruct category as [[|? ?]|]; done.
  - exists (strip c). rewrite Hc. split; [done|]. split; [apply strip_idemp|].
    apply fullmatch_barcode_spec in Hm as Hm'. destruct Hm' as [Hd Hl].
    split; [done|]. split; [done|].
    by rewrite valid_barcode_strip, strip_idemp.
Qed.

(** X3. The brand (or store) of a row never contains a comma and carries no
    surrounding whitespace; it is empty when the field is absent or empty. *)
Theorem first_token_clean (field : option str) :
  (comma ∉ first_token field) ∧
  strip (first_token field) = first_token field ∧
  (get_or field [] = [] → first_token field = []).
Proof.
  unfold first_token. split; [|split].
  - intros Hin. apply strip_subseteq in Hin.
    by apply split_head_no_sep in Hin.
  - apply strip_idemp.
  - by intros ->.
Qed.
End TrimFacts.

(** ** More on deduplication *)

Lemma dedupe_from_fixed (rows : list Row) (seen : gset str) :
  Forall (λ r, ∃ b, row_barcode r = Some b ∧ b ≠ [] ∧ b ∉ seen) rows →
  NoDup (row_barcode <$> rows) →
  dedupe_from seen rows = rows.
Proof.
  revert seen. induction rows as [|r rows IH]; intros seen Hall Hnd; [done|].
  apply Forall_cons in Hall as [(b & Hb & Hne & Hns) Hall].
  rewrite fmap_cons in Hnd. apply NoDup_cons in Hnd as [Hr Hnd].
  simpl. rewrite Hb. apply truthy_true in Hne as ->.
  rewrite bool_decide_eq_true_2 by done. simpl. f_equal.
  apply IH; [|done]. apply Forall_forall. intros r' Hr'.
  destruct (proj1 (Forall_forall _ _) Hall r' Hr') as (b' & Hb' & Hne' & Hns').
  exists b'. split; [done|]. split; [done|].
  rewrite not_elem_of_union, not_elem_of_singleton. split; [|done].
  intros ->. apply Hr. rewrite Hb, <- Hb'. by apply list_elem_of_fmap_2.
Qed.

(** X4. [dedupe] leaves a list alone whose rows all have a present,
    non-empty barcode and no barcode twice. *)
Theorem dedupe_fixed (rows : list Row) :
  Forall (λ r, ∃ b, row_barcode r = Some b ∧ b ≠ []) rows →
  NoDup (row_barcode <$> rows) →
  dedupe rows = rows.
Proof.
  intros Hall Hnd. rewrite dedupe_dedupe_from.
  apply dedupe_from_fixed; [|done].
  eapply Forall_impl; [exact Hall|]. intros r (b & ? & ?).
  exists b. split; [done|]. split; [done|]. apply not_elem_of_empty.
Qed.

(** X5. [dedupe] is idempotent. *)
Theorem dedupe_idemp (rows : list Row) : dedupe (dedupe rows) = dedupe rows.
Proof.
  rewrite !dedupe_dedupe_from. apply dedupe_from_fixed.
  - apply Forall_forall. intros r Hr.
    apply dedupe_from_elem in Hr as [_ (b & ? & ? & ?)]. by exists b.
  - apply dedupe_from_NoDup.
Qed.

(** X6. Rows appended to the input never displace a row kept before: the
    output for a list is a prefix of the output for any extension of it, and
    the output never has more rows than the input. *)
Theorem dedupe_prefix (rows more : list Row) :
  dedupe rows `prefix_of` dedupe (rows ++ more) ∧
  (length (dedupe rows) ≤ length rows)%nat.
Proof.
  split.
  - unfold dedupe. rewrite foldl_app.
    destruct (foldl dedupe_step (∅, []) rows) as [seen out].
    rewrite foldl_dedupe_step. simpl. by eexists.
  - apply sublist_length. rewrite dedupe_dedupe_from.
    apply dedupe_from_sublist.
Qed.

(** ** More on the batch and the counters *)

Lemma CATEGORIES_nonempty : Forall (λ c, c ≠ []) CATEGORIES.
Proof. repeat constructor; done. Qed.

Lemma CATEGORIES_NoDup : NoDup CATEGORIES.
Proof. apply (bool_decide_unpack _). vm_compute. exact I. Qed.

Lemma cat_stats_bump_ne (f : Stats → Stats) (cat cat' : str)
    (m : gmap str Stats) :
  cat ≠ cat' → cat_stats (bump f cat m) cat' = cat_stats m cat'.
Proof. intros Hne. unfold bump, cat_stats. by rewrite lookup_insert_ne. Qed.

Section MoreBatchFacts.
Context `{PyUnicode}.
Variable existing : gset str.
Variable fetch_category : str → Z → list RawProduct.

Lemma intake_rows_elem (recs : list (RawProduct * str)) (r : Row) :
  r ∈ intake_rows existing recs →
  ∃ p cat, (p, cat) ∈ recs ∧ product_to_row p (Some cat) = Some r ∧
           getitem_barcode r ∉ existing.
Proof.
  unfold intake_rows. intros ([p cat] & Hr & Hin)%list_elem_of_bind.
  simpl in Hr. exists p, cat. split; [done|].
  destruct (product_to_row p (Some cat)) as [r'|]; [|by apply elem_of_nil in Hr].
  case_bool_decide; [by apply elem_of_nil in Hr|].
  by apply list_elem_of_singleton in Hr as ->.
Qed.

Lemma fetched_for_elem (limit : Z) (cats : list str) (p : RawProduct)
    (cat : str) :
  (p, cat) ∈ fetched_for fetch_category limit cats ↔
  cat ∈ cats ∧ p ∈ fetch_category cat (per_cat limit).
Proof.
  unfold fetched_for. rewrite list_elem_of_bind. split.
  - intros (c & Hin & Hc). apply list_elem_of_fmap in Hin as (q & [= -> ->] & ?).
    done.
  - intros [Hc Hp]. exists cat. split; [|done].
    by apply (list_elem_of_fmap_2 (λ p, (p, cat))).
Qed.

Lemma written_rows_sublist (L : Z) :
  written_rows existing fetch_category L
  `sublist_of` intake_rows existing (fetched fetch_category L).
Proof.
  unfold written_rows. rewrite collect_all_rows, dedupe_dedupe_from.
  etrans; [apply slice_to_sublist | apply dedupe_from_sublist].
Qed.

Lemma written_rows_subseteq (L : Z) :
  written_rows existing fetch_category L
  ⊆ intake_rows existing (fetched fetch_category L).
Proof. apply sublist_subseteq, written_rows_sublist. Qed.

Lemma written_rows_origin (L : Z) (r : Row) :
  r ∈ written_rows existing fetch_category L →
  (∃ p, (p, row_cat r) ∈ fetched fetch_category L ∧
        product_to_row p (Some (row_cat r)) = Some r) ∧
  (∃ b, row_barcode r = Some b ∧ (b ∉ existing) ∧
        fullmatch_barcode b = true) ∧
  row_cat r ∈ CATEGORIES.
Proof.
  intros Hr. apply written_rows_subseteq in Hr.
  apply intake_rows_elem in Hr as (p & cat & Hin & Hrow & Hk).
  pose proof Hin as Hin'. apply fetched_for_elem in Hin' as [Hcat _].
  assert (row_cat r = cat) as Hrc.
  { pose proof (proj1 (Forall_forall _ _) CATEGORIES_nonempty cat Hcat) as Hne.
    unfold product_to_row in Hrow.
    destruct (valid_barcode (code p)); [|done]. injection Hrow as <-.
    simpl. by destruct cat. }
  rewrite Hrc. split; [by exists p|]. split; [|done].
  destruct (product_to_row_barcode p (Some cat) r Hrow) as (c & _ & Hb & Hm).
  exists (strip c). split; [done|]. split; [|done].
  unfold getitem_barcode in Hk. by rewrite Hb in Hk.
Qed.

(** X7. Every row written comes from a fetched record; its barcode is
    present, of the valid format and not in the snapshot of known barcodes;
    and its category is one of [CATEGORIES] (never "Unbekannt"). *)
Theorem written_rows_clean (L : Z) :
  Forall (λ r,
    (∃ p, (p, row_cat r) ∈ fetched fetch_category L ∧
          product_to_row p (Some (row_cat r)) = Some r) ∧
    (∃ b, row_barcode r = Some b ∧ (b ∉ existing) ∧
          fullmatch_barcode b = true) ∧
    row_cat r ∈ CATEGORIES)
    (written_rows existing fetch_category L).
Proof. apply Forall_forall. intros r Hr. by apply written_rows_origin. Qed.

(** X8. For a negative limit [L] the rows written are the deduplicated batch
    without its last [-L] rows (none when the batch has at most [-L]). *)
Theorem written_rows_negative_limit (L : Z) :
  L < 0 →
  written_rows existing fetch_category L
  = take (length (accepted_per_spec existing [] (fetched fetch_category L))
          - Z.to_nat (- L))
      (accepted_per_spec existing [] (fetched fetch_category L)).
Proof.
  intros HL. unfold written_rows. rewrite dedupe_collect. unfold slice_to.
  rewrite (proj2 (Z.ltb_lt L 0) HL). f_equal. lia.
Qed.

Lemma tally_intake (cat : str) (st : State) (p : RawProduct) :
  let st' := intake existing cat st p in
  (new (stats_total st') = new (stats_total st)
                           + length (intake_rows existing [(p, cat)]))%nat ∧
  (sum_cat new (stats_cat st') + sum_cat skip (stats_cat st')
   = S (sum_cat new (stats_cat st) + sum_cat skip (stats_cat st)))%nat ∧
  imported (stats_total st') = imported (stats_total st) ∧
  (new (cat_stats (stats_cat st') cat) + skip (cat_stats (stats_cat st') cat)
   = S (new (cat_stats (stats_cat st) cat)
        + skip (cat_stats (stats_cat st) cat)))%nat ∧
  (∀ cat', cat ≠ cat' →
           cat_stats (stats_cat st') cat' = cat_stats (stats_cat st) cat').
Proof.
  unfold intake, intake_rows. simpl.
  destruct (product_to_row p (Some cat)) as [r|]; [case_bool_decide|]; simpl;
    rewrite ?cat_stats_bump;
    rewrite ?(sum_cat_bump_same new inc_new), ?(sum_cat_bump_other skip inc_new),
      ?(sum_cat_bump_same skip inc_skip), ?(sum_cat_bump_other new inc_skip)
      by done;
    (repeat split; [simpl; lia..|]); intros; by apply cat_stats_bump_ne.
Qed.

Lemma tally_foldl_intake (cat : str) (ps : list RawProduct) (st : State) :
  let st' := foldl (intake existing cat) st ps in
  (new (stats_total st') = new (stats_total st)
     + length (intake_rows existing ((λ p, (p, cat)) <$> ps)))%nat ∧
  (sum_cat new (stats_cat st') + sum_cat skip (stats_cat st')
   = sum_cat new (stats_cat st) + sum_cat skip (stats_cat st)
     + length ps)%nat ∧
  imported (stats_total st') = imported (stats_total st) ∧
  (new (cat_stats (stats_cat st') cat) + skip (cat_stats (stats_cat st') cat)
   = new (cat_stats (stats_cat st) cat) + skip (cat_stats (stats_cat st) cat)
     + length ps)%nat ∧
  (∀ cat', cat ≠ cat' →
           cat_stats (stats_cat st') cat' = cat_stats (stats_cat st) cat').
Proof.
  revert st. induction ps as [|p ps IH]; intros st.
  - simpl. repeat split; lia.
  - rewrite fmap_cons. cbn [foldl]. cbv zeta.
    destruct (IH (intake existing cat st p)) as (H1 & H2 & H3 & H4 & H5).
    destruct (tally_intake cat st p) as (G1 & G2 & G3 & G4 & G5).
    rewrite (intake_rows_cons existing p cat (_ <$> ps)), length_app.
    rewrite H1, H2, H3, H4, G1, G2, G3, G4. simpl.
    repeat split; [lia..|]. intros cat' Hne. by rewrite H5, G5.
Qed.

Lemma tally_foldl_intake_category (limit : Z) (cats : list str) (st : State) :
  NoDup cats →
  let st' := foldl (intake_category existing fetch_category limit) st cats in
  (new (stats_total st') = new (stats_total st)
     + length (intake_rows existing
                 (fetched_for fetch_category limit cats)))%nat ∧
  (sum_cat new (stats_cat st') + sum_cat skip (stats_cat st')
   = sum_cat new (stats_cat st) + sum_cat skip (stats_cat st)
     + length (fetched_for fetch_category limit cats))%nat ∧
  imported (stats_total st') = imported (stats_total st) ∧
  (∀ cat, cat ∈ cats →
     (new (cat_stats (stats_cat st') cat) + skip (cat_stats (stats_cat st') cat)
      = new (cat_stats (stats_cat st) cat)
        + skip (cat_stats (stats_cat st) cat)
        + length (fetch_category cat (per_cat limit)))%nat) ∧
  (∀ cat, cat ∉ cats →
     cat_stats (stats_cat st') cat = cat_stats (stats_cat st) cat).
Proof.
  intros Hnd. revert st.
  induction Hnd as [|c cats Hc Hnd IH]; intros st.
  - simpl. repeat split; try lia. by intros ? ?%elem_of_nil.
  - cbn [foldl]. cbv zeta.
    destruct (IH (intake_category existing fetch_category limit st c))
      as (H1 & H2 & H3 & H4 & H5).
    unfold intake_category in *.
    match type of H1 with
    | context [foldl (intake existing c) ?st0 ?ps] =>
        destruct (tally_foldl_intake c ps st0) as (G1 & G2 & G3 & G4 & G5)
    end.
    cbn [stats_total stats_cat] in G1, G2, G3, G4, G5.
    unfold fetched_for. rewrite bind_cons, intake_rows_app, !length_app.
    rewrite length_fmap.
    fold (fetched_for fetch_category limit cats).
    rewrite H1, H2, H3, G1, G2, G3.
    repeat split; [lia..| |].
    + intros cat [->|Hin]%elem_of_cons.
      * by rewrite (H5 c Hc), G4.
      * rewrite (H4 cat Hin), (G5 cat); [done|]. by intros ->.
    + intros cat [Hne Hnin]%not_elem_of_cons.
      rewrite (H5 cat Hnin), (G5 cat); [done|]. by intros ->.
Qed.

(** X9. After intake every fetched record is counted exactly once: the
    per-category [new] and [skip] counters together sum to the number of
    records fetched, the counters of a category sum to the number of records
    fetched under it, the aggregate [new] counter is the number of rows
    accumulated before deduplication, and no [imported] counter has moved. *)
Theorem collect_counts_every_record (L : Z) :
  let st := collect existing fetch_category L in
  (sum_cat new (stats_cat st) + sum_cat skip (stats_cat st)
   = length (fetched fetch_category L))%nat ∧
  Forall (λ cat,
    (new (cat_stats (stats_cat st) cat) + skip (cat_stats (stats_cat st) cat)
     = length (fetch_category cat (per_cat L)))%nat) CATEGORIES ∧
  new (stats_total st) = length (all_rows st) ∧
  imported (stats_total st) = 0%nat.
Proof.
  cbv zeta. rewrite collect_all_rows. unfold collect.
  destruct (tally_foldl_intake_category L CATEGORIES init_state
              CATEGORIES_NoDup) as (H1 & H2 & H3 & H4 & _).
  split; [exact H2|]. split; [|split; [exact H1 | exact H3]].
  apply Forall_forall. intros cat Hcat. exact (H4 cat Hcat).
Qed.

(** X10. The aggregate [new] counter is never smaller than the number of
    rows written: deduplication and truncation only remove rows. *)
Theorem new_counter_bounds_written (L : Z) :
  (length (written_rows existing fetch_category L)
   ≤ new (stats_total (collect existing fetch_category L)))%nat.
Proof.
  destruct (tally_foldl_intake_category L CATEGORIES init_state
              CATEGORIES_NoDup) as (H1 & _).
  unfold collect. rewrite H1.
  change (new (stats_total init_state)) with 0%nat. rewrite Nat.add_0_l.
  apply sublist_length, written_rows_sublist.
Qed.
End MoreBatchFacts.

(** ** The count requested per category *)

Section RequestFacts.
Context `{PyUnicode}.
Variable existing : gset str.
Variable fetch_category : str → Z → list RawProduct.

(** The intake consults the search service for the categories of the list
    at the count [per_cat limit] only. *)
Lemma foldl_intake_category_ext (other : str → Z → list RawProduct)
    (limit : Z) (cats : list str) (st : State) :
  (∀ cat, cat ∈ cats →
          other cat (per_cat limit) = fetch_category cat (per_cat limit)) →
  foldl (intake_category existing other limit) st cats
  = foldl (intake_category existing fetch_category limit) st cats.
Proof.
  revert st. induction cats as [|c cats IH]; intros st Hext; [done|].
  cbn [foldl]. rewrite IH by (intros cat Hcat; apply Hext; by right).
  f_equal. unfold intake_category. rewrite Hext by (by left). done.
Qed.

(** C8. The count requested per category is [max(10, L div 13)] (floor
    division), 13 being the length of [CATEGORIES], and it is never below
    10.  It is the count that [main] passes to [fetch_category]: the rows
    taken in are those of the records answered for each category at this
    count, the [new] and [skip] counters of each category sum to the number
    of records answered for it at this count, and the outcome of the intake
    is the same for any two search services that answer alike at this count
    for the 13 categories, whatever they answer at other counts.  The calls
    are made for the categories in the listed order. *)
Theorem per_cat_request (L : Z) :
  per_cat L = Z.max 10 (L / 13) ∧
  length CATEGORIES = 13%nat ∧
  10 ≤ per_cat L ∧
  all_rows (collect existing fetch_category L)
  = intake_rows existing
      (cat ← CATEGORIES;
       (λ p, (p, cat)) <$> fetch_category cat (Z.max 10 (L / 13))) ∧
  Forall (λ cat,
    (new (cat_stats (stats_cat (collect existing fetch_category L)) cat)
     + skip (cat_stats (stats_cat (collect existing fetch_category L)) cat)
     = length (fetch_category cat (Z.max 10 (L / 13))))%nat) CATEGORIES ∧
  (∀ other : str → Z → list RawProduct,
     (∀ cat, cat ∈ CATEGORIES →
             other cat (Z.max 10 (L / 13))
             = fetch_category cat (Z.max 10 (L / 13))) →
     collect existing other L = collect existing fetch_category L) ∧
  fetch_log (collect existing fetch_category L)
  = (λ c, (c, Z.max 10 (L / 13))) <$> CATEGORIES.
Proof.
  assert (per_cat L = Z.max 10 (L / 13)) as Hper.
  { unfold per_cat. by rewrite CATEGORIES_length. }
  split; [done|]. split; [apply CATEGORIES_length|].
  split; [rewrite Hper; lia|]. split.
  { rewrite collect_all_rows. unfold fetched, fetched_for. by rewrite Hper. }
  split.
  { destruct (tally_foldl_intake_category existing fetch_category L
                CATEGORIES init_state CATEGORIES_NoDup)
      as (_ & _ & _ & H4 & _).
    unfold collect. apply Forall_forall. intros cat Hcat.
    pose proof (H4 cat Hcat) as Hc. rewrite Hper in Hc. exact Hc. }
  split.
  { intros other Hother. unfold collect.
    apply foldl_intake_category_ext. intros cat Hcat.
    rewrite Hper. by apply Hother. }
  rewrite collect_fetch_log. by rewrite Hper.
Qed.
End RequestFacts.

(** ** More on the run *)

Lemma printed_entry_bump (f : Stats → Stats) (cat : str)
    (m : gmap str Stats) :
  cat ∈ CATEGORIES →
  (∀ v, 0 < new (f v) + skip (f v) + imported (f v))%nat →
  map_Forall printed_entry m → map_Forall printed_entry (bump f cat m).
Proof.
  intros Hcat Hf Hm. unfold bump. apply map_Forall_insert_2; [|done].
  by split.
Qed.

Section MoreRunFacts.
Context `{PyUnicode} {R : Type} `{Remote R}.
Variable existing : gset str.
Variable fetch_category : str → Z → list RawProduct.

Lemma printed_intake (cat : str) (st : State) (p : RawProduct) :
  cat ∈ CATEGORIES → map_Forall printed_entry (stats_cat st) →
  map_Forall printed_entry (stats_cat (intake existing cat st p)).
Proof.
  intros Hcat Hm. unfold intake.
  destruct (product_to_row p (Some cat)); [case_bool_decide|]; simpl;
    (apply printed_entry_bump; [done | intros v; simpl; lia | done]).
Qed.

Lemma printed_foldl_intake (cat : str) (ps : list RawProduct) (st : State) :
  cat ∈ CATEGORIES → map_Forall printed_entry (stats_cat st) →
  map_Forall printed_entry (stats_cat (foldl (intake existing cat) st ps)).
Proof.
  intros Hcat. revert st. induction ps as [|p ps IH]; intros st Hm; [done|].
  cbn [foldl]. apply IH. by apply printed_intake.
Qed.

Lemma printed_foldl_intake_category (limit : Z) (cats : list str)
    (st : State) :
  cats ⊆ CATEGORIES → map_Forall printed_entry (stats_cat st) →
  map_Forall printed_entry
    (stats_cat (foldl (intake_category existing fetch_category limit) st cats)).
Proof.
  revert st. induction cats as [|c cats IH]; intros st Hsub Hm; [done|].
  cbn [foldl]. apply IH.
  - intros x Hx. apply Hsub. by right.
  - unfold intake_category. apply printed_foldl_intake; [|done].
    apply Hsub. by left.
Qed.

Lemma printed_collect (limit : Z) :
  map_Forall printed_entry (stats_cat (collect existing fetch_category limit)).
Proof.
  unfold collect.
  apply (printed_foldl_intake_category limit CATEGORIES init_state);
    [reflexivity | apply map_Forall_empty].
Qed.

Lemma printed_import_rows (qu loc : Z) (rows : list Row) (st : State)
    (s : R) :
  Forall (λ r, row_cat r ∈ CATEGORIES) rows →
  map_Forall printed_entry (stats_cat st) →
  map_Forall printed_entry (stats_cat (import_rows qu loc rows st s).1.2).
Proof.
  intros Hrows. revert st s.
  induction Hrows as [|r rows Hr _ IH]; intros st s Hm; [done|].
  rewrite import_rows_cons.
  destruct (create_product r qu loc s) as [[pid|e] s']; [|done].
  apply IH. destruct (truthy_pid pid); [|done]. simpl.
  apply printed_entry_bump; [done | intros v; simpl; lia | done].
Qed.

Lemma import_phase_cases (do_import : bool) (rows : list Row) (st : State)
    (s : R) :
  (∃ qu loc s', import_phase do_import rows st s
                = import_rows qu loc rows st s') ∨
  (import_phase do_import rows st s).1.2 = st.
Proof.
  unfold import_phase.
  destruct (do_import && bool_decide (rows ≠ [])); [|by right].
  destruct (ensure_unit unit_name s) as [[qu|e] s1]; [|by right].
  destruct (ensure_location location_name s1) as [[loc|e] s2]; [|by right].
  left. by exists qu, loc, s2.
Qed.

Lemma run_eq (L : Z) (do_import : bool) (s : R) :
  run existing fetch_category L do_import s
  = import_phase do_import
      (slice_to (dedupe (all_rows (collect existing fetch_category L))) L)
      {| stats_total := stats_total (collect existing fetch_category L);
         stats_cat := stats_cat (collect existing fetch_category L);
         all_rows :=
           slice_to (dedupe (all_rows (collect existing fetch_category L))) L;
         fetch_log := fetch_log (collect existing fetch_category L) |} s.
Proof. unfold run. reflexivity. Qed.

Lemma collect_imported_zero (L : Z) :
  imported (stats_total (collect existing fetch_category L)) = 0%nat.
Proof.
  destruct (tally_foldl_intake_category existing fetch_category L CATEGORIES
              init_state CATEGORIES_NoDup) as (_ & _ & H3 & _).
  unfold collect. exact H3.
Qed.

Lemma written_rows_cats (L : Z) :
  Forall (λ r, row_cat r ∈ CATEGORIES)
    (written_rows existing fetch_category L).
Proof.
  apply Forall_forall. intros r Hr.
  exact (proj2 (proj2 (written_rows_origin existing fetch_category L r Hr))).
Qed.

Lemma printed_import_phase (do_import : bool) (rows : list Row) (st : State)
    (s : R) :
  Forall (λ r, row_cat r ∈ CATEGORIES) rows →
  map_Forall printed_entry (stats_cat st) →
  map_Forall printed_entry (stats_cat (import_phase do_import rows st s).1.2).
Proof.
  intros Hrows Hm.
  destruct (import_phase_cases do_import rows st s)
    as [(qu & loc & s' & ->)| ->]; [|exact Hm].
  by apply printed_import_rows.
Qed.

(** X11. When a run ends (or is aborted during the import), every key of
    [stats_cat] is one of [CATEGORIES] and has a positive counter: the
    summary's [any(vals.values())] filter hides no entry, and no entry is
    ever made for a category outside the list. *)
Theorem stats_cat_entries_printed (L : Z) (do_import : bool) (s : R) :
  map_Forall printed_entry
    (stats_cat (run existing fetch_category L do_import s).1.2).
Proof.
  rewrite run_eq.
  pose proof (written_rows_cats L) as Hrows. unfold written_rows in Hrows.
  pose proof (printed_collect L) as Hp.
  revert Hrows Hp. generalize (collect existing fetch_category L).
  intros st Hrows Hp.
  apply printed_import_phase; [exact Hrows | exact Hp].
Qed.

Lemma import_phase_skipped (do_import : bool) (rows : list Row) (st : State)
    (s : R) :
  do_import = false ∨ rows = [] →
  import_phase do_import rows st s = (Ok tt, st, s).
Proof.
  intros [-> | ->]; unfold import_phase; [reflexivity|].
  by rewrite andb_false_r.
Qed.

(** X12. Without import, or with no row to write, a run ends normally
    without any call to the server: the server state is untouched, not even
    the unit and location are looked up, and no [imported] counter moves. *)
Theorem run_without_import (L : Z) (do_import : bool) (s : R) :
  do_import = false ∨ written_rows existing fetch_category L = [] →
  (run existing fetch_category L do_import s).1.1 = Ok tt ∧
  (run existing fetch_category L do_import s).2 = s ∧
  all_rows (run existing fetch_category L do_import s).1.2
  = written_rows existing fetch_category L ∧
  imported (stats_total (run existing fetch_category L do_import s).1.2)
  = 0%nat.
Proof.
  unfold written_rows. intros Hno.
  rewrite run_eq, import_phase_skipped by exact Hno.
  pose proof (collect_imported_zero L) as Hz.
  revert Hz. generalize (collect existing fetch_category L). intros st Hz.
  split; [reflexivity|]. split; [reflexivity|]. split; [reflexivity|].
  exact Hz.
Qed.

Lemma import_rows_imported (qu loc : Z) (rows : list Row) (st : State)
    (s : R) :
  (imported (stats_total (import_rows qu loc rows st s).1.2)
   ≤ imported (stats_total st) + length rows)%nat ∧
  new (stats_total (import_rows qu loc rows st s).1.2) = new (stats_total st) ∧
  skip (stats_total (import_rows qu loc rows st s).1.2)
  = skip (stats_total st) ∧
  all_rows (import_rows qu loc rows st s).1.2 = all_rows st.
Proof.
  revert st s. induction rows as [|r rows IH]; intros st s.
  - simpl. repeat split; lia.
  - rewrite import_rows_cons.
    destruct (create_product r qu loc s) as [[pid|e] s'];
      [|simpl; repeat split; lia].
    destruct (IH (if truthy_pid pid then count_imported r st else st) s')
      as (H1 & H2 & H3 & H4).
    rewrite H2, H3, H4.
    destruct (truthy_pid pid); simpl in *; repeat split; lia.
Qed.

Lemma import_phase_imported (do_import : bool) (rows : list Row) (st : State)
    (s : R) :
  (imported (stats_total (import_phase do_import rows st s).1.2)
   ≤ imported (stats_total st) + length rows)%nat ∧
  new (stats_total (import_phase do_import rows st s).1.2)
  = new (stats_total st) ∧
  skip (stats_total (import_phase do_import rows st s).1.2)
  = skip (stats_total st) ∧
  all_rows (import_phase do_import rows st s).1.2 = all_rows st.
Proof.
  destruct (import_phase_cases do_import rows st s)
    as [(qu & loc & s' & ->)| ->].
  - apply import_rows_imported.
  - repeat split; lia.
Qed.

(** X13. The import changes neither the [new] and [skip] figures nor the
    rows written, and the aggregate [imported] counter never exceeds the
    number of rows written. *)
Theorem imported_bounded_by_written (L : Z) (do_import : bool) (s : R) :
  (imported (stats_total (run existing fetch_category L do_import s).1.2)
   ≤ length (written_rows existing fetch_category L))%nat ∧
  new (stats_total (run existing fetch_category L do_import s).1.2)
  = new (stats_total (collect existing fetch_category L)) ∧
  skip (stats_total (run existing fetch_category L do_import s).1.2)
  = skip (stats_total (collect existing fetch_category L)) ∧
  all_rows (run existing fetch_category L do_import s).1.2
  = written_rows existing fetch_category L.
Proof.
  unfold written_rows. rewrite run_eq.
  pose proof (collect_imported_zero L) as Hz.
  revert Hz. generalize (collect existing fetch_category L). intros st Hz.
  match goal with
  | |- context [import_phase _ ?rows ?st0 _] =>
      destruct (import_phase_imported do_import rows st0 s)
        as (H1 & H2 & H3 & H4)
  end.
  cbn [stats_total all_rows] in H1, H2, H3, H4.
  rewrite Hz in H1.
  split; [exact H1|]. split; [exact H2|]. split; [exact H3 | exact H4].
Qed.
End MoreRunFacts.

(** ** The calls made to the server *)

Section CallFacts.
Context `{PyUnicode} {R : Type} (srv : Remote R).

Lemma logged_post (req : request) (log : list call) (s : R) :
  @remote_post _ (logged srv) req (log, s)
  = ((@remote_post R srv req s).1,
     (log ++ [CallPost req], (@remote_post R srv req s).2)).
Proof. simpl. by destruct (@remote_post R srv req s). Qed.

Lemma logged_get (coll : collection) (log : list call) (s : R) :
  @remote_get _ (logged srv) coll (log, s)
  = ((@remote_get R srv coll s).1,
     (log ++ [CallGet coll], (@remote_get R srv coll s).2)).
Proof. simpl. by destruct (@remote_get R srv coll s). Qed.

Lemma create_product_logged (row : Row) (qu loc : Z) (log : list call)
    (s : R) :
  @create_product _ _ (logged srv) row qu loc (log, s)
  = ((@create_product _ R srv row qu loc s).1,
     (log ++ CallPost (product_request row qu loc) ::
        match (@remote_post R srv (product_request row qu loc) s).1 with
        | Ok (Some pid) =>
            [CallPost (PostProductBarcode pid (getitem_barcode row))]
        | _ => []
        end,
      (@create_product _ R srv row qu loc s).2)).
Proof.
  rewrite (@create_product_cases _ _ (logged srv)).
  rewrite (@create_product_cases _ _ srv), logged_post.
  destruct (@remote_post R srv (product_request row qu loc) s)
    as [[[pid|]|[]] s1]; try done.
  cbn [fst snd]. rewrite logged_post.
  destruct (@remote_post R srv (PostProductBarcode pid (getitem_barcode row))
              s1) as [[b|[]] s2]; cbn [fst snd];
    by rewrite <- app_assoc.
Qed.

(** X14. [create_product] answers and leaves the server as it does without
    the log, and it makes one or two calls: the product request, followed
    by the barcode request exactly when the server answered the product
    request with an identifier; the barcode request carries that identifier
    and the row's barcode.  No barcode is posted for a product that was not
    created. *)
Theorem create_product_calls (row : Row) (qu loc : Z) (log : list call)
    (s : R) :
  (@create_product _ _ (logged srv) row qu loc (log, s)).1
  = (@create_product _ R srv row qu loc s).1 ∧
  (@create_product _ _ (logged srv) row qu loc (log, s)).2.2
  = (@create_product _ R srv row qu loc s).2 ∧
  (@create_product _ _ (logged srv) row qu loc (log, s)).2.1
  = log ++ CallPost (product_request row qu loc) ::
      match (@remote_post R srv (product_request row qu loc) s).1 with
      | Ok (Some pid) =>
          [CallPost (PostProductBarcode pid (getitem_barcode row))]
      | _ => []
      end.
Proof. by rewrite create_product_logged. Qed.

Lemma ensure_logged (coll : collection) (name : str) (create : request)
    (log : list call) (s : R) :
  @ensure _ (logged srv) coll name create (log, s)
  = ((@ensure R srv coll name create s).1,
     (log ++ CallGet coll ::
        match (@remote_get R srv coll s).1 with
        | Ok entities =>
            match List.find (λ e, bool_decide (e.1 = name)) entities with
            | Some _ => []
            | None => [CallPost create]
            end
        | Raise _ => []
        end,
      (@ensure R srv coll name create s).2)).
Proof.
  unfold ensure, post_created_id.
  unfold mbind, Api_bind, bind, ret, raise.
  rewrite logged_get.
  destruct (@remote_get R srv coll s) as [[entities|e] s1]; cbn [fst snd];
    [|done].
  destruct (List.find _ entities) as [e|]; [done|].
  rewrite logged_post.
  destruct (@remote_post R srv create s1) as [[[id|]|e] s2]; cbn [fst snd];
    by rewrite <- app_assoc.
Qed.

(** X15. The lookup-or-create of [ensure_unit] and [ensure_location] first
    lists the entities; it posts the creation request only when the listing
    succeeded and holds no entity of the wanted name, returns the identifier
    of the first listed entity of that name otherwise, and raises what the
    listing raised. *)
Theorem ensure_calls (coll : collection) (name : str) (create : request)
    (log : list call) (s : R) :
  (@ensure _ (logged srv) coll name create (log, s)).1
  = (@ensure R srv coll name create s).1 ∧
  (@ensure _ (logged srv) coll name create (log, s)).2.2
  = (@ensure R srv coll name create s).2 ∧
  (@ensure _ (logged srv) coll name create (log, s)).2.1
  = log ++ CallGet coll ::
      match (@remote_get R srv coll s).1 with
      | Ok entities =>
          match List.find (λ e, bool_decide (e.1 = name)) entities with
          | Some _ => []
          | None => [CallPost create]
          end
      | Raise _ => []
      end ∧
  match (@remote_get R srv coll s).1 with
  | Ok entities =>
      match List.find (λ e, bool_decide (e.1 = name)) entities with
      | Some e => @ensure R srv coll name create s
                  = (Ok e.2, (@remote_get R srv coll s).2)
      | None => True
      end
  | Raise e => @ensure R srv coll name create s
               = (Raise e, (@remote_get R srv coll s).2)
  end.
Proof.
  rewrite ensure_logged. cbn [fst snd].
  split; [done|]. split; [done|]. split; [done|].
  unfold ensure. unfold mbind, Api_bind, bind, ret.
  destruct (@remote_get R srv coll s) as [[entities|e] s1]; cbn [fst snd];
    [|done].
  by destruct (List.find _ entities).
Qed.

Lemma import_rows_logged (qu loc : Z) (rows : list Row) (st : State)
    (log : list call) (s : R) :
  ∃ calls,
    @import_rows _ _ (logged srv) qu loc rows st (log, s)
    = ((@import_rows _ R srv qu loc rows st s).1,
       (log ++ calls, (@import_rows _ R srv qu loc rows st s).2)) ∧
    Forall (λ c, product_call c = true) calls ∧
    (length calls ≤ 2 * length rows)%nat ∧
    ((@import_rows _ R srv qu loc rows st s).1.1 = Ok tt →
     (length rows ≤ length calls)%nat).
Proof.
  revert st log s. induction rows as [|r rows IH]; intros st log s.
  - exists []. simpl. rewrite app_nil_r.
    split; [done|]. split; [constructor|]. split; [lia|done].
  - rewrite (@import_rows_cons _ _ (logged srv)).
    rewrite (@import_rows_cons _ _ srv), create_product_logged.
    set (first := CallPost (product_request r qu loc) :: _).
    assert (Forall (λ c, product_call c = true) first
            ∧ (1 ≤ length first ≤ 2)%nat) as [Hfirst Hlen].
    { subst first.
      destruct (@remote_post R srv (product_request r qu loc) s).1
        as [[pid|]|e]; simpl; (split; [repeat constructor | lia]). }
    clearbody first.
    destruct (@create_product _ R srv r qu loc s) as [[pid|e] s'];
      cbn [fst snd].
    + destruct (IH (if truthy_pid pid then count_imported r st else st)
                  (log ++ first) s') as (calls & -> & Hall & Hle & Hok).
      exists (first ++ calls). rewrite <- app_assoc.
      split; [done|]. split; [by apply Forall_app|].
      rewrite length_app. simpl. split; [lia|]. intros Hend.
      specialize (Hok Hend). lia.
    + exists first. split; [done|]. split; [done|]. simpl. split; [lia|done].
Qed.

(** X16. The import phase behaves as it does without the log.  It makes no
    call at all without [--import] or without rows.  Otherwise it first
    lists the quantity units; the calls that ensure the unit and the
    location come before every product or barcode request; the loop makes
    only product and barcode requests, at most two per row, and one was made
    for every row when the phase ends normally. *)
Theorem import_phase_calls (do_import : bool) (rows : list Row) (st : State)
    (log : list call) (s : R) :
  ∃ calls,
    @import_phase _ _ (logged srv) do_import rows st (log, s)
    = ((@import_phase _ R srv do_import rows st s).1,
       (log ++ calls, (@import_phase _ R srv do_import rows st s).2)) ∧
    if do_import && bool_decide (rows ≠ []) then
      ∃ pre prod,
        calls = CallGet QuantityUnits :: pre ++ prod ∧
        Forall (λ c, product_call c = false) pre ∧
        Forall (λ c, product_call c = true) prod ∧
        (length prod ≤ 2 * length rows)%nat ∧
        ((@import_phase _ R srv do_import rows st s).1.1 = Ok tt →
         (length rows ≤ length prod)%nat)
    else calls = [].
Proof.
  unfold import_phase.
  destruct (do_import && bool_decide (rows ≠ [])).
  2:{ exists []. by rewrite app_nil_r. }
  unfold ensure_unit, ensure_location. rewrite ensure_logged.
  set (unit_calls := match (@remote_get R srv QuantityUnits s).1 with
                     | Ok _ => _ | Raise _ => _ end).
  assert (Forall (λ c, product_call c = false) unit_calls) as Hunit.
  { subst unit_calls. destruct (@remote_get R srv QuantityUnits s).1 as [ents|];
      [destruct (List.find _ ents)|]; repeat constructor. }
  clearbody unit_calls.
  destruct (@ensure R srv QuantityUnits unit_name
              (PostQuantityUnit unit_name unit_name) s) as [[qu|e] s1];
    cbn [fst snd].
  2:{ exists (CallGet QuantityUnits :: unit_calls). split; [done|].
      exists unit_calls, []. rewrite app_nil_r.
      split; [done|]. split; [done|]. split; [constructor|].
      split; [simpl; lia | done]. }
  rewrite ensure_logged.
  set (loc_calls := match (@remote_get R srv Locations s1).1 with
                    | Ok _ => _ | Raise _ => _ end).
  assert (Forall (λ c, product_call c = false) loc_calls) as Hloc.
  { subst loc_calls. destruct (@remote_get R srv Locations s1).1 as [ents|];
      [destruct (List.find _ ents)|]; repeat constructor. }
  clearbody loc_calls.
  destruct (@ensure R srv Locations location_name (PostLocation location_name)
              s1) as [[loc|e] s2]; cbn [fst snd].
  - destruct (import_rows_logged qu loc rows st
                ((log ++ CallGet QuantityUnits :: unit_calls)
                 ++ CallGet Locations :: loc_calls) s2)
      as (prod & -> & Hprod & Hle & Hok).
    exists (CallGet QuantityUnits
            :: (unit_calls ++ CallGet Locations :: loc_calls) ++ prod).
    split; [by rewrite <- !app_assoc|].
    exists (unit_calls ++ CallGet Locations :: loc_calls), prod.
    split; [done|]. split; [|done].
    apply Forall_app. split; [done|]. by constructor.
  - exists (CallGet QuantityUnits
            :: (unit_calls ++ CallGet Locations :: loc_calls) ++ []).
    split; [by rewrite app_nil_r, <- !app_assoc|].
    exists (unit_calls ++ CallGet Locations :: loc_calls), [].
    split; [done|]. split.
    { apply Forall_app. split; [done|]. by constructor. }
    split; [constructor|]. split; [simpl; lia | done].
Qed.
End CallFacts.

(** ** The snapshot of known barcodes *)

Section SnapshotFacts.
Context `{PyUnicode}.
Variable fetch_category : str → Z → list RawProduct.

Lemma existing_barcodes_elem (data : option (list barcode_field)) (b : str) :
  b ∈ existing_barcodes data ↔
  b ≠ [] ∧ ∃ x, x ∈ default [] data ∧ strip (barcode_text x) = b.
Proof.
  unfold existing_barcodes.
  rewrite elem_of_list_to_set, list_elem_of_filter, list_elem_of_fmap.
  rewrite truthy_true. split.
  - intros [Hne (x & -> & Hx)]. split; [done|]. by exists x.
  - intros [Hne (x & Hx & <-)]. split; [done|]. by exists x.
Qed.

(** X17. The snapshot holds exactly the non-empty trimmed texts of the
    barcodes listed (nothing for a null or empty listing); in particular
    none of its members is empty or carries surrounding whitespace. *)
Theorem existing_barcodes_trimmed (data : option (list barcode_field))
    (b : str) :
  (b ∈ existing_barcodes data ↔
   b ≠ [] ∧ ∃ x, x ∈ default [] data ∧ strip (barcode_text x) = b) ∧
  (b ∈ existing_barcodes data → strip b = b) ∧
  existing_barcodes None = ∅ ∧ existing_barcodes (Some []) = ∅.
Proof.
  split; [apply existing_barcodes_elem|]. split; [|done].
  intros (_ & x & _ & <-)%existing_barcodes_elem. apply strip_idemp.
Qed.

(** X18. Against the snapshot built from a listing, no row written has a
    barcode that equals the trimmed text of a listed barcode: whitespace
    around the code of a record or around the barcode on file does not let
    a known product through. *)
Theorem written_rows_not_listed (data : option (list barcode_field))
    (L : Z) :
  Forall (λ r, Forall (λ x, row_barcode r ≠ Some (strip (barcode_text x)))
                 (default [] data))
    (written_rows (existing_barcodes data) fetch_category L).
Proof.
  apply Forall_forall. intros r Hr.
  destruct (written_rows_origin _ fetch_category L r Hr)
    as (_ & (b & Hb & Hnk & Hm) & _).
  apply Forall_forall. intros x Hx Heq. apply Hnk.
  rewrite Hb in Heq. injection Heq as ->.
  apply existing_barcodes_elem. split; [|by exists x].
  apply truthy_true. by apply fullmatch_barcode_truthy.
Qed.
End SnapshotFacts.

(** ** Configuration values *)

Section ConfigFacts.
Context `{PyUnicode} `{PyLower}.

(** X19. [parse_bool] ignores whitespace around a present value, and the
    default matters for an absent value only. *)
Theorem parse_bool_padded (ws s ws' : str) (d d' : bool) :
  Forall (λ c, isspace c = true) ws → Forall (λ c, isspace c = true) ws' →
  parse_bool (Some (ws ++ s ++ ws')) d = parse_bool (Some s) d' ∧
  parse_bool None d = d.
Proof.
  intros Hws Hws'. split; [|done]. unfold parse_bool.
  by rewrite strip_padded.
Qed.
End ConfigFacts.

Lemma lstrip_char_replicate (c : char) (n : nat) (s : str) :
  lstrip_char c (replicate n c ++ s) = lstrip_char c s.
Proof. induction n as [|n IH]; simpl; [done|]. by rewrite N.eqb_refl. Qed.

Lemma lstrip_char_head (c : char) (s : str) :
  head (lstrip_char c s) ≠ Some c.
Proof.
  induction s as [|d s IH]; simpl; [done|].
  destruct (N.eqb_spec d c) as [->|Hne]; [done|]. simpl. congruence.
Qed.

(** X20. The base address of the API never ends in a slash, and slashes at
    the end of the configured address do not change the address of any
    request. *)
Theorem api_url_trailing_slashes (url path : str) (n : nat) :
  last (rstrip_char slash url) ≠ Some slash ∧
  api_url (url ++ replicate n slash) path = api_url url path.
Proof.
  unfold api_url, rstrip_char. split.
  - rewrite last_reverse. apply lstrip_char_head.
  - rewrite reverse_app, reverse_replicate. by rewrite lstrip_char_replicate.
Qed.

(** ** The category fetcher *)

(** The literals of [CATEGORIES], read as UTF-8, are the code points of the
    table. *)
Lemma CATEGORIES_utf8 :
  CATEGORIES
  = utf8 <$> ["Getränke"; "Tiefkühlprodukte"; "Backzutaten";
              "Grundnahrungsmittel"; "Pasta und Reis"; "Konserven"; "Obst";
              "Gemüse"; "Internationale Küche"; "Hygiene"; "Drogerie";
              "Putzmittel"; "Haushaltswaren"]%string.
Proof. vm_compute. reflexivity. Qed.

Lemma SUBKEYWORDS_nonempty : map_Forall (λ _ subs, subs ≠ []) SUBKEYWORDS.
Proof. apply (bool_decide_unpack _). vm_compute. exact I. Qed.

Lemma SUBKEYWORDS_categories :
  Forall (λ cat, is_Some (SUBKEYWORDS !! cat)) CATEGORIES.
Proof. apply (bool_decide_unpack _). vm_compute. exact I. Qed.

Lemma SUBKEYWORDS_keys :
  map_Forall (λ cat _, cat ∈ CATEGORIES) SUBKEYWORDS.
Proof. apply (bool_decide_unpack _). vm_compute. exact I. Qed.

Section FetcherFacts.
Context {G W : Type} `{Random G} `{SearchService W}.

Lemma choice_in_range {A} (seq : list A) (g : G) :
  randbelow_in_range → seq ≠ [] →
  ∃ x, (choice seq g).1 = Ok x ∧ x ∈ seq.
Proof.
  intros Hrange Hne. unfold choice. destruct seq as [|a seq]; [done|].
  specialize (Hrange (length (a :: seq)) g).
  destruct (randbelow (length (a :: seq)) g) as [i g'].
  destruct (lookup_lt_is_Some_2 (a :: seq) i) as [x Hx].
  { apply Hrange. simpl. lia. }
  rewrite Hx. exists x. split; [done|].
  by apply list_elem_of_lookup_2 in Hx.
Qed.

(** X21. With a generator that keeps [_randbelow] in range,
    [fetch_category] never raises.  It sends one request, for the requested
    number of results and a page between 1 and 10, and answers the products
    of the response, or no product when the request failed in any way.  The
    search term is the category itself without [random_subcats], and one of
    the category's own entries of [SUBKEYWORDS] with it, whenever the
    category has an entry, as every category of [CATEGORIES] has. *)
Theorem fetch_category_total (cat : str) (limit : Z) (random_subcats : bool)
    (g : G) (w : W) :
  randbelow_in_range →
  ∃ term pg,
    let req := {| search_simple := 1; action := lit "process"; json := 1;
                  page_size := limit; search_terms := term;
                  countries := lit "Germany"; lc := lit "de";
                  sort_by := lit "random"; page := pg |} in
    (fetch_category cat limit random_subcats g w).1.1
    = Ok (match (search req w).1 with
          | Ok body => default [] body
          | Raise _ => []
          end) ∧
    (fetch_category cat limit random_subcats g w).2 = (search req w).2 ∧
    1 ≤ pg ≤ 10 ∧
    match SUBKEYWORDS !! cat with
    | Some subs => if random_subcats then term ∈ subs else term = cat
    | None => term = cat ∧ cat ∉ CATEGORIES
    end.
Proof.
  intros Hrange. unfold fetch_category.
  assert (∃ term g1,
    (if random_subcats
     then match SUBKEYWORDS !! cat with
          | Some subs => choice subs g
          | None => (Ok cat, g)
          end
     else (Ok cat, g)) = (Ok term, g1) ∧
    match SUBKEYWORDS !! cat with
    | Some subs => if random_subcats then term ∈ subs else term = cat
    | None => term = cat ∧ cat ∉ CATEGORIES
    end) as (term & g1 & -> & Hterm).
  { assert (SUBKEYWORDS !! cat = None → cat ∉ CATEGORIES) as Hout.
    { intros Hnone Hin.
      destruct (proj1 (Forall_forall _ _) SUBKEYWORDS_categories cat Hin)
        as [subs Hsubs].
      congruence. }
    destruct random_subcats.
    - destruct (SUBKEYWORDS !! cat) as [subs|] eqn:Hsubs;
        [|exists cat, g; split; [done|]; split; [done | by apply Hout]].
      destruct (choice_in_range subs g Hrange) as (x & Hx & Hin).
      { exact (SUBKEYWORDS_nonempty cat subs Hsubs). }
      destruct (choice subs g) as [r g1]. simpl in Hx. subst r.
      by exists x, g1.
    - exists cat, g. split; [done|].
      destruct (SUBKEYWORDS !! cat); [done|]. split; [done | by apply Hout]. }
  unfold randint. pose proof (Hrange 10%nat g1) as Hpage.
  destruct (randbelow 10 g1) as [i g2]. simpl in Hpage.
  exists term, (1 + Z.of_nat i). cbv zeta. unfold off_query.
  destruct (search _ w) as [[body|e] w']; simpl;
    (split; [done|]; split; [done|]; split; [lia | exact Hterm]).
Qed.
End FetcherFacts.

(** ** The whole program *)

Section MainFacts.
Context `{PyUnicode} `{PyLower}.
Context {R : Type} `{Remote R} `{BarcodeListing R}.

Lemma run_rows (existing : gset str) (fetch : str → Z → list RawProduct)
    (L : Z) (do_import : bool) (s : R) :
  all_rows (run existing fetch L do_import s).1.2
  = written_rows existing fetch L.
Proof.
  unfold written_rows. rewrite run_eq.
  generalize (collect existing fetch L). intros st.
  match goal with
  | |- context [import_phase _ ?rows ?st0 _] =>
      destruct (import_phase_imported do_import rows st0 s) as (_ & _ & _ & H4)
  end.
  exact H4.
Qed.

(** X22. A run of the script that ends with status 2 has done nothing: the
    server was not contacted and no file was written.  It ends so only when
    [argparse] rejects the command line, or when, [--init-config] not being
    asked for, the INI file is missing or, after the command line and the
    INI file have been combined without error, the address or the key is
    empty; and it does end so in each of these cases. *)
Theorem main_status_2 (argv : parse_args_result) (cfile : config_file)
    (writable : bool) (fetch : str → Z → list RawProduct) (s : R) :
  exit_code (script argv cfile writable fetch s) = 2 →
  server (script argv cfile writable fetch s) = s ∧
  csv_written (script argv cfile writable fetch s) = None ∧
  summary (script argv cfile writable fetch s) = None ∧
  ini_written (script argv cfile writable fetch s) = None ∧
  (argv = UsageError ∨
   ∃ args, argv = Namespace args ∧ arg_init_config args = false ∧
     (cfile = ConfigMissing ∨
      ∃ sec cfg, cfile = ConfigParsed (Some sec) ∧
                 resolve args sec = Ok cfg ∧
                 (grocy_url cfg = [] ∨ api_key cfg = []))) ∧
  (∀ argv' cfile' writable' fetch' s',
     (argv' = UsageError ∨
      ∃ args, argv' = Namespace args ∧ arg_init_config args = false ∧
        (cfile' = ConfigMissing ∨
         ∃ sec cfg, cfile' = ConfigParsed (Some sec) ∧
                    resolve args sec = Ok cfg ∧
                    (grocy_url cfg = [] ∨ api_key cfg = []))) →
     exit_code (script argv' cfile' writable' fetch' s') = 2).
Proof.
  intros Hcode.
  assert (∀ argv' cfile' writable' (fetch' : str → Z → list RawProduct)
            (s' : R),
     (argv' = UsageError ∨
      ∃ args, argv' = Namespace args ∧ arg_init_config args = false ∧
        (cfile' = ConfigMissing ∨
         ∃ sec cfg, cfile' = ConfigParsed (Some sec) ∧
                    resolve args sec = Ok cfg ∧
                    (grocy_url cfg = [] ∨ api_key cfg = []))) →
     exit_code (script argv' cfile' writable' fetch' s') = 2) as Hconv.
  { intros argv' cfile' writable' fetch' s'
      [->|(args & -> & Hinit & [->|(sec & cfg & -> & Hcfg & Hempty)])].
    - reflexivity.
    - unfold script, main. rewrite Hinit. reflexivity.
    - unfold script, main. rewrite Hinit, Hcfg.
      by destruct Hempty as [->| ->]; rewrite ?orb_true_r. }
  revert Hcode. destruct argv as [| |args]; [| done |].
  { intros _. split; [done|]. split; [done|]. split; [done|].
    split; [done|]. split; [by left | exact Hconv]. }
  unfold script, main.
  destruct (arg_init_config args) eqn:Hinit; [by destruct writable|].
  destruct cfile as [| |[sec|]]; try done.
  - intros _. split; [done|]. split; [done|]. split; [done|].
    split; [done|]. split; [|exact Hconv].
    right. exists args. split; [done|]. split; [done|]. by left.
  - destruct (resolve args sec) as [cfg|e] eqn:Hcfg; [|done].
    destruct (negb (truthy (grocy_url cfg)) || negb (truthy (api_key cfg)))
      eqn:Hempty.
    + intros _. split; [done|]. split; [done|]. split; [done|].
      split; [done|]. split; [|exact Hconv].
      right. exists args. split; [done|]. split; [done|].
      right. exists sec, cfg.
      split; [done|]. split; [done|].
      apply orb_true_iff in Hempty as [Hu|Hk]; [left | right].
      * by destruct (grocy_url cfg).
      * by destruct (api_key cfg).
    + destruct (fetch_existing_barcodes s) as [[existing|e] s1]; [|done].
      destruct writable; [|done].
      destruct (run existing fetch (limit cfg) (do_import cfg) s1)
        as [[[[]|e] st] s2]; done.
Qed.


(** X24. On the command line, [--limit 0] is the same as no [--limit] (the
    limit of the INI file applies), and [--no-import] does not undo
    [--import]. *)
Theorem main_flag_equivalences (args : Args) (cfile : config_file)
    (writable : bool) (fetch : str → Z → list RawProduct) (s : R) :
  main (with_limit (Some 0) args) cfile writable fetch s
  = main (with_limit None args) cfile writable fetch s ∧
  main (with_import_flags true true args) cfile writable fetch s
  = main (with_import_flags true false args) cfile writable fetch s.
Proof.
  assert (∀ sec, resolve (with_limit (Some 0) args) sec
                 = resolve (with_limit None args) sec) as Hlimit by done.
  assert (∀ sec, resolve (with_import_flags true true args) sec
                 = resolve (with_import_flags true false args) sec) as Hflags.
  { intros sec. unfold resolve. cbn [with_import_flags arg_limit
      arg_grocy_url arg_api_key arg_csv arg_debug arg_do_import
      arg_random_subcats arg_no_import]. by destruct (resolve_limit _ _). }
  unfold main. split.
  - cbn [with_limit arg_init_config arg_config arg_seed].
    destruct (arg_init_config args); [done|].
    destruct cfile as [| |[sec|]]; rewrite ?Hlimit; done.
  - cbn [with_import_flags arg_init_config arg_config arg_seed].
    destruct (arg_init_config args); [done|].
    destruct cfile as [| |[sec|]]; rewrite ?Hflags; done.
Qed.

(** X25. When the barcodes on file cannot be listed, a run (other than
    [--init-config]) writes no CSV, prints no summary and ends with a status
    other than 0. *)
Theorem main_snapshot_failure (args : Args) (cfile : config_file)
    (writable : bool) (fetch : str → Z → list RawProduct) (s : R) (e : exn) :
  arg_init_config args = false →
  (fetch_existing_barcodes s).1 = Raise e →
  exit_code (main args cfile writable fetch s) ≠ 0 ∧
  csv_written (main args cfile writable fetch s) = None ∧
  summary (main args cfile writable fetch s) = None.
Proof.
  intros Hinit Hsnap. unfold main. rewrite Hinit.
  destruct cfile as [| |[sec|]]; try done.
  destruct (resolve args sec) as [cfg|?]; [|done].
  destruct (negb (truthy (grocy_url cfg)) || negb (truthy (api_key cfg)));
    [done|].
  destruct (fetch_existing_barcodes s) as [[existing|?] s1]; done.
Qed.
End MainFacts.

(** ** More concrete runs *)

Section MoreExamples.
Local Existing Instance basic_latin.
Local Existing Instance ascii_lower_case.
Local Existing Instance scripted_server.
Local Existing Instance empty_listing.
Local Existing Instance counting_random.
Local Existing Instance failing_once.

Lemma padded_code_same_identifier_witness :
  let p := product_with_code "40123456" in
  let p' := product_with_code " 40123456 " in
  Forall (λ c, isspace c = true) (lit " ") ∧
  code p' = Some (lit " " ++ lit "40123456" ++ lit " ") ∧
  valid_barcode (code p') = valid_barcode (code p) ∧
  identifier p' = identifier p.
Proof.
  intros p p'.
  assert (Forall (λ c, isspace c = true) (lit " ")) as Hws
    by (repeat constructor).
  assert (code p = Some (lit "40123456")) as Hp by reflexivity.
  assert (code p' = Some (lit " " ++ lit "40123456" ++ lit " ")) as Hp'
    by reflexivity.
  destruct (padded_code_same_identifier p p' (lit " ") (lit "40123456")
              (lit " ") None None Hws Hws Hp Hp') as (Hv & Hid & _).
  split; [exact Hws|]. split; [exact Hp'|]. split; [exact Hv | exact Hid].
Defined.

Lemma product_to_row_canonical_witness :
  let r := row_of_code "40123456" "Obst" in
  product_to_row (product_with_code " 40123456 ") (Some (lit "Obst"))
  = Some r ∧
  row_name r ≠ [] ∧ row_cat r ≠ [].
Proof.
  intros r.
  assert (product_to_row (product_with_code " 40123456 ") (Some (lit "Obst"))
          = Some r) as Hrow by (vm_compute; reflexivity).
  destruct (product_to_row_canonical _ _ r Hrow) as (Hname & Hcat & _).
  split; [exact Hrow|]. split; [exact Hname | exact Hcat].
Defined.

Lemma dedupe_fixed_witness :
  let rows := [row_of_code "40123456" "Obst";
               row_of_code "4006381333931" "Obst"] in
  Forall (λ r, ∃ b, row_barcode r = Some b ∧ b ≠ []) rows ∧
  NoDup (row_barcode <$> rows) ∧
  dedupe rows = rows.
Proof.
  intros rows.
  assert (Forall (λ r, ∃ b, row_barcode r = Some b ∧ b ≠ []) rows) as Hall.
  { repeat constructor; eexists; (split; [reflexivity | done]). }
  assert (NoDup (row_barcode <$> rows)) as Hnd.
  { apply (bool_decide_unpack _). vm_compute. exact I. }
  split; [exact Hall|]. split; [exact Hnd|].
  exact (dedupe_fixed rows Hall Hnd).
Defined.

Lemma written_rows_negative_limit_witness :
  let fetch := obst_only [product_with_code "40123456";
                          product_with_code "4006381333931";
                          product_with_code "12345670"] in
  -2 < 0 ∧
  written_rows ∅ fetch (-2)
  = take (length (accepted_per_spec ∅ [] (fetched fetch (-2)))
          - Z.to_nat (- -2))
      (accepted_per_spec ∅ [] (fetched fetch (-2))).
Proof.
  intros fetch. assert (-2 < 0) as Hneg by lia.
  split; [exact Hneg|].
  exact (written_rows_negative_limit ∅ fetch (-2) Hneg).
Defined.

Lemma run_without_import_witness :
  let fetch := obst_only [product_with_code "40123456"] in
  let s := [Raise OtherError] in
  (false = false ∨ written_rows ∅ fetch 200 = []) ∧
  (run ∅ fetch 200 false s).1.1 = Ok tt ∧
  (run ∅ fetch 200 false s).2 = s.
Proof.
  intros fetch s.
  assert (false = false ∨ written_rows ∅ fetch 200 = []) as Hno
    by (left; reflexivity).
  destruct (run_without_import ∅ fetch 200 false s Hno) as (Hok & Hs & _).
  split; [exact Hno|]. split; [exact Hok | exact Hs].
Defined.

Lemma parse_bool_padded_witness :
  Forall (λ c, isspace c = true) (lit " ") ∧
  parse_bool (Some (lit " " ++ lit "Yes" ++ lit " ")) false
  = parse_bool (Some (lit "Yes")) true ∧
  parse_bool (Some (lit "Yes")) true = true.
Proof.
  assert (Forall (λ c, isspace c = true) (lit " ")) as Hws
    by (repeat constructor).
  destruct (parse_bool_padded (lit " ") (lit "Yes") (lit " ") false true
              Hws Hws) as (Hpad & _).
  split; [exact Hws|]. split; [exact Hpad|]. vm_compute. reflexivity.
Defined.

Lemma fetch_category_total_witness :
  @randbelow_in_range nat counting_random ∧
  (fetch_category (lit "Obst") 15 true 7%nat false).1.1 = Ok [] ∧
  (fetch_category (lit "Obst") 15 true 7%nat true).1.1
  = Ok [product_with_code "40123456"].
Proof.
  assert (@randbelow_in_range nat counting_random) as Hrange.
  { intros n g Hn. simpl. apply Nat.mod_upper_bound. lia. }
  destruct (fetch_category_total (lit "Obst") 15 true 7%nat false Hrange)
    as (term & pg & Hres & _).
  split; [exact Hrange|]. split; [|vm_compute; reflexivity].
  rewrite Hres. reflexivity.
Defined.

Lemma main_status_2_witness :
  let rejected := script UsageError (ConfigParsed (Some sample_section)) true
                    (obst_only [])
                    ([Ok (Some 1)] : list (result (option Z))) in
  let missing := script (Namespace default_args) ConfigMissing true
                   (obst_only []) ([] : list (result (option Z))) in
  (exit_code rejected = 2 ∧ server rejected = [Ok (Some 1)] ∧
   csv_written rejected = None) ∧
  (exit_code missing = 2 ∧ server missing = [] ∧ csv_written missing = None).
Proof.
  intros rejected missing.
  assert (exit_code rejected = 2) as Hrejected by reflexivity.
  assert (exit_code missing = 2) as Hmissing by reflexivity.
  destruct (main_status_2 UsageError (ConfigParsed (Some sample_section))
              true (obst_only []) ([Ok (Some 1)] : list (result (option Z)))
              Hrejected) as (Hs1 & Hcsv1 & _).
  destruct (main_status_2 (Namespace default_args) ConfigMissing true
              (obst_only []) ([] : list (result (option Z))) Hmissing)
    as (Hs2 & Hcsv2 & _).
  split.
  - split; [exact Hrejected|]. split; [exact Hs1 | exact Hcsv1].
  - split; [exact Hmissing|]. split; [exact Hs2 | exact Hcsv2].
Defined.


Lemma main_snapshot_failure_witness :
  let out := @main basic_latin ascii_lower_case _ scripted_server
               unreachable_listing default_args
               (ConfigParsed (Some sample_section)) true (obst_only []) [] in
  (@fetch_existing_barcodes basic_latin _ unreachable_listing
     ([] : list (result (option Z)))).1 = Raise OtherError ∧
  exit_code out ≠ 0 ∧ csv_written out = None.
Proof.
  intros out.
  assert ((@fetch_existing_barcodes basic_latin _ unreachable_listing
             ([] : list (result (option Z)))).1 = Raise OtherError) as Hsnap
    by reflexivity.
  destruct (@main_snapshot_failure basic_latin ascii_lower_case _
              scripted_server unreachable_listing default_args
              (ConfigParsed (Some sample_section)) true (obst_only []) []
              OtherError eq_refl Hsnap) as (Hcode & Hcsv & _).
  split; [exact Hsnap|]. split; [exact Hcode | exact Hcsv].
Defined.
End MoreExamples.
